(** * tastFlow: the project detail page ([src/pages/ProjectPage.tsx])

    A shallow embedding of the page-level controller: role derivation on
    load, the owner-only permission flags, the two guarded mutations
    (status change, delete) and the deduplicated member list.

    The React component is a function of its render snapshot (route
    parameter, current user, hook values); its handlers are modelled as
    computations in a small state-and-exception monad over the hook state,
    logging every call to an outside collaborator (data access, toast,
    navigation, console).  The data-access module and the current-user
    accessor live in [@/utils/api]; they enter as parameters. *)

From Stdlib Require Import Ascii String.
From stdpp Require Import base option list gmap sets strings pretty.

Set Warnings "-clear-no-such-hyp".

Local Open Scope string_scope.
Local Open Scope list_scope.

(** ** JavaScript values *)

(** A value of TypeScript type [string | undefined]; [None] is [undefined]. *)
Definition truthy (v : option string) : bool :=
  match v with
  | Some s => negb (String.eqb s "")
  | None => false
  end.

(** JavaScript's [a || b] on such values. *)
Definition js_or (a b : option string) : option string :=
  if truthy a then a else b.

Infix "|||" := js_or (at level 50, left associativity).

(** The double-quote character, for template literals. *)
Definition dquote : string := String "034"%char EmptyString.

(** ** Data model ([@/utils/api] declares the types; the fields are those the
    page reads) *)

Module User.
(** Modelled from the spec: the [User] interface of [@/utils/api]
    ("identifier plus display attributes").  The page reads [_id] and
    [id]; either may be missing on an embedded record. *)
Record t := mk {
  _id : option string;
  id : option string;
  name : string;
}.

#[global] Instance eq_dec : EqDecision t.
Proof. solve_decision. Defined.
End User.

(** A membership as the server sends it: a bare identifier, an embedded
    record, or [null].  [typeof m === 'object'] holds for a record and for
    [null]; [typeof m === 'object' && m] holds for a record only. *)
Inductive Member :=
| Bare (s : string)
| Embedded (u : User.t)
| Null.

#[global] Instance Member_eq_dec : EqDecision Member.
Proof. solve_decision. Defined.

Inductive Status := Actif | Inactif | Archive.

Definition status_text (s : Status) : string :=
  match s with
  | Actif => "Actif"
  | Inactif => "Inactif"
  | Archive => "Archivé"
  end.

Module Project.
(** Modelled from the spec: the [Project] interface of [@/utils/api].
    [admins] and [team] are [None] when the field is not an array. *)
Record t := mk {
  _id : string;
  name : string;
  description : option string;
  status : Status;
  owner : Member;
  admins : option (list Member);
  team : option (list Member);
}.

(** [{ ...project, status }] *)
Definition with_status (p : t) (s : Status) : t :=
  {| _id := _id p; name := name p; description := description p;
     status := s; owner := owner p; admins := admins p; team := team p |}.
End Project.

Module Role.
(** ['owner' | 'admin' | 'team']; the hook holds [Role | null]. *)
Inductive t := owner | admin | team.

#[global] Instance eq_dec : EqDecision t.
Proof. solve_decision. Defined.
End Role.

(** What a rejected request carries: [error.response?.data?.message]. *)
Module Error.
Record data_t := mkData { message : option string }.
Record response_t := mkResponse { data : option data_t }.
Record t := mk { response : option response_t }.
End Error.

(** The [TypeError] of a property read on [null]; it has no [response]. *)
Definition typeError : Error.t := {| Error.response := None |}.

Inductive Promise (A : Type) :=
| Resolved (a : A)
| Rejected (e : Error.t).
Arguments Resolved {A} a.
Arguments Rejected {A} e.

(** The data-access collaborator, as seen by one handler run. *)
Module projectService.
Record t := mk {
  getById : string → Promise Project.t;
  update : string → Status → Promise Project.t;
  delete : string → Promise unit;
}.
End projectService.

Record Toast := mkToast {
  title : string;
  description : string;
  variant : option string;
}.

(** ** Hook state and effects *)

Module State.
Record t := mk {
  project : option Project.t;
  isLoading : bool;
  createTicketOpen : bool;
  selectedTicketId : option string;
  teamDialogOpen : bool;
  editProjectOpen : bool;
  userRole : option Role.t;
}.

(** The values of the [useState] calls at mount. *)
Definition initial : t :=
  {| project := None; isLoading := true; createTicketOpen := false;
     selectedTicketId := None; teamDialogOpen := false;
     editProjectOpen := false; userRole := None |}.
End State.

(** Calls that leave the component. *)
Inductive Event :=
| CallGetById (id : string)
| CallUpdate (id : string) (status : Status)
| CallDelete (id : string)
| ShowToast (t : Toast)
| ConsoleError (msg : string) (e : Error.t)
| Navigate (path : string).

Record World := mkWorld {
  state : State.t;
  log : list Event;
}.

Inductive Completion (A : Type) :=
| Normal (a : A)
| Thrown (e : Error.t).
Arguments Normal {A} a.
Arguments Thrown {A} e.

Definition Eff (A : Type) : Type := World → Completion A * World.

#[global] Instance eff_ret : MRet Eff := λ A a w, (Normal a, w).

#[global] Instance eff_bind : MBind Eff := λ A B f m w,
  match m w with
  | (Normal a, w') => f a w'
  | (Thrown e, w') => (Thrown e, w')
  end.

(** [try { body } catch (error) { handler } finally { fin }] *)
Definition try_catch_finally {A} (body : Eff A) (handler : Error.t → Eff A)
    (fin : Eff unit) : Eff A := λ w,
  let '(r, w1) :=
    match body w with
    | (Normal a, w') => (Normal a, w')
    | (Thrown e, w') => handler e w'
    end in
  match fin w1 with
  | (Normal _, w2) => (r, w2)
  | (Thrown e, w2) => (Thrown e, w2)
  end.

(** [try { body } catch (error) { handler }] *)
Definition try_catch {A} (body : Eff A) (handler : Error.t → Eff A) : Eff A :=
  λ w,
  match body w with
  | (Normal a, w') => (Normal a, w')
  | (Thrown e, w') => handler e w'
  end.

Definition emit (ev : Event) : Eff unit := λ w,
  (Normal tt, {| state := state w; log := log w ++ [ev] |}).

Definition modify (f : State.t → State.t) : Eff unit := λ w,
  (Normal tt, {| state := f (state w); log := log w |}).

Definition throw {A} (e : Error.t) : Eff A := λ w, (Thrown e, w).

(** [await p]: a rejected promise throws. *)
Definition await {A} (p : Promise A) : Eff A := λ w,
  match p with
  | Resolved a => (Normal a, w)
  | Rejected e => (Thrown e, w)
  end.

Definition setProject (p : option Project.t) : Eff unit :=
  modify (λ s, {| State.project := p;
                  State.isLoading := State.isLoading s;
                  State.createTicketOpen := State.createTicketOpen s;
                  State.selectedTicketId := State.selectedTicketId s;
                  State.teamDialogOpen := State.teamDialogOpen s;
                  State.editProjectOpen := State.editProjectOpen s;
                  State.userRole := State.userRole s |}).

Definition setIsLoading (b : bool) : Eff unit :=
  modify (λ s, {| State.project := State.project s;
                  State.isLoading := b;
                  State.createTicketOpen := State.createTicketOpen s;
                  State.selectedTicketId := State.selectedTicketId s;
                  State.teamDialogOpen := State.teamDialogOpen s;
                  State.editProjectOpen := State.editProjectOpen s;
                  State.userRole := State.userRole s |}).

Definition setUserRole (r : option Role.t) : Eff unit :=
  modify (λ s, {| State.project := State.project s;
                  State.isLoading := State.isLoading s;
                  State.createTicketOpen := State.createTicketOpen s;
                  State.selectedTicketId := State.selectedTicketId s;
                  State.teamDialogOpen := State.teamDialogOpen s;
                  State.editProjectOpen := State.editProjectOpen s;
                  State.userRole := r |}).

Definition toast (t : Toast) : Eff unit := emit (ShowToast t).
Definition navigate (path : string) : Eff unit := emit (Navigate path).
Definition console_error (msg : string) (e : Error.t) : Eff unit :=
  emit (ConsoleError msg e).

(** The world after running a handler. *)
Definition run {A} (m : Eff A) (w : World) : World := snd (m w).

(** [a === b] on [string | undefined]. *)
Definition strict_eq (a b : option string) : bool := bool_decide (a = b).
Infix "===" := strict_eq (at level 70, no associativity).

(** [a || fallback] where the fallback is a string literal. *)
Definition js_or_else (a : option string) (fallback : string) : string :=
  match a with
  | Some s => if String.eqb s "" then fallback else s
  | None => fallback
  end.

(** [l.some(f)]: the callback runs on the elements in order until it
    answers true; an exception in the callback ends the scan. *)
Fixpoint some (f : Member → Eff bool) (l : list Member) : Eff bool :=
  match l with
  | [] => mret false
  | m :: l' => f m ≫= λ b : bool, if b then mret true else some f l'
  end.

(** [Array.isArray(a) && a.some(f)] *)
Definition array_some (a : option (list Member)) (f : Member → Eff bool)
    : Eff bool :=
  match a with
  | Some l => some f l
  | None => mret false
  end.

(** ** The component *)

Section ProjectPage.
(** [useParams().id], [getCurrentUserId()] and the data-access module. *)
Variable id : option string.
Variable currentUserId : string.
Variable svc : projectService.t.

(** The hook values captured by the handlers of one render. *)
Variable project : option Project.t.
Variable userRole : option Role.t.

Definition loadProject : Eff unit :=
  match id with
  | None => mret tt
  | Some i =>
    if negb (truthy id) then mret tt else
    try_catch_finally
      (setIsLoading true;;
       data ← (emit (CallGetById i);; await (projectService.getById svc i));
       setProject (Some data);;
       ownerId ←
         match Project.owner data return Eff (option string) with
         | Embedded o => mret (User._id o ||| User.id o)
         | Null => throw typeError
         | Bare s => mret (Some s)
         end;
       if Some currentUserId === ownerId then
         setUserRole (Some Role.owner)
       else
         isAdmin ← array_some (Project.admins data) (λ admin,
           adminId ←
             match admin return Eff (option string) with
             | Embedded a => mret (User._id a ||| User.id a)
             | Null => throw typeError
             | Bare s => mret (Some s)
             end;
           mret (adminId === Some currentUserId));
         if isAdmin : bool then
           setUserRole (Some Role.admin)
         else
           isTeam ← array_some (Project.team data) (λ member,
             memberId ←
               match member return Eff (option string) with
               | Embedded m => mret (User._id m ||| User.id m)
               | Null => throw typeError
               | Bare s => mret (Some s)
               end;
             mret (memberId === Some currentUserId));
           if isTeam : bool then
             setUserRole (Some Role.team)
           else
             setUserRole None)
      (λ error,
         toast {| title := "Erreur";
                  description := "Impossible de charger le projet";
                  variant := Some "destructive" |};;
         console_error "Erreur de chargement du projet:" error;;
         navigate "/")
      (setIsLoading false)
  end.

Definition isOwner : bool := bool_decide (userRole = Some Role.owner).
Definition canEditProject : bool := isOwner.
Definition canDeleteProject : bool := isOwner.
Definition canManageTeam : bool := isOwner.
Definition canCreateTicket : bool := isOwner.
Definition canChangeStatus : bool := isOwner.

Definition statusDenied : Toast :=
  {| title := "Accès refusé";
     description := "Seul le propriétaire peut modifier le statut du projet";
     variant := Some "destructive" |}.

Definition handleStatusChange (status : Status) : Eff unit :=
  match project with
  | Some p =>
    if negb canChangeStatus then toast statusDenied else
    try_catch
      (_ ← (emit (CallUpdate (Project._id p) status);;
            await (projectService.update svc (Project._id p) status));
       setProject (Some (Project.with_status p status));;
       toast {| title := "Statut modifié";
                description := "Le projet est maintenant " +:+ dquote +:+
                               status_text status +:+ dquote +:+ ".";
                variant := None |})
      (λ error,
         let errorMessage :=
           js_or_else (r ← Error.response error; d ← Error.data r; Error.message d)
                      "Impossible de modifier le statut" in
         toast {| title := "Erreur";
                  description := errorMessage;
                  variant := Some "destructive" |})
  | None => toast statusDenied
  end.

Definition deleteDenied : Toast :=
  {| title := "Accès refusé";
     description := "Seul le propriétaire peut supprimer le projet";
     variant := Some "destructive" |}.

Definition handleDelete : Eff unit :=
  match project with
  | Some p =>
    if negb canDeleteProject then toast deleteDenied else
    try_catch
      ((emit (CallDelete (Project._id p));;
        await (projectService.delete svc (Project._id p)));;
       toast {| title := "Projet supprimé";
                description := "Le projet " +:+ dquote +:+ Project.name p +:+
                               dquote +:+ " a été supprimé.";
                variant := Some "destructive" |};;
       navigate "/")
      (λ error,
         let errorMessage :=
           js_or_else (r ← Error.response error; d ← Error.data r; Error.message d)
                      "Impossible de supprimer le projet" in
         toast {| title := "Erreur";
                  description := errorMessage;
                  variant := Some "destructive" |})
  | None => toast deleteDenied
  end.
End ProjectPage.

(** [users.push(u)] *)
Definition push (users : list User.t) (u : User.t) : list User.t :=
  users ++ [u].

(** [getMemberUsers] is evaluated in the loaded render branch only, where
    [project] is not null.  [users] and [userIds] are threaded as a pair;
    [userIds.add(k)] is [{[k]} ∪ userIds]. *)
Definition getMemberUsers (project : Project.t) : list User.t :=
  let start : list User.t * gset (option string) := ([], ∅) in
  let afterOwner :=
    match Project.owner project with
    | Embedded o =>
      let ownerId := User._id o ||| User.id o in
      if decide (ownerId ∈ start.2) then start
      else (push start.1 o, {[ownerId]} ∪ start.2)
    | Bare _ | Null => start
    end in
  let afterAdmins :=
    match Project.admins project with
    | Some l =>
      foldl (λ acc admin,
               match admin with
               | Embedded a =>
                 let adminId := User._id a ||| User.id a in
                 if decide (adminId ∈ acc.2) then acc
                 else (push acc.1 a, {[adminId]} ∪ acc.2)
               | Bare _ | Null => acc
               end) afterOwner l
    | None => afterOwner
    end in
  let afterTeam :=
    match Project.team project with
    | Some l =>
      foldl (λ acc member,
               match member with
               | Embedded m =>
                 let memberId := User._id m ||| User.id m in
                 if decide (memberId ∈ acc.2) then acc
                 else (push acc.1 m, {[memberId]} ∪ acc.2)
               | Bare _ | Null => acc
               end) afterAdmins l
    | None => afterAdmins
    end in
  afterTeam.1.

(** ** Rendering *)

(** The status control: a [Select] bound to [handleStatusChange], or a
    read-only box. *)
Inductive StatusControl :=
| StatusSelect (value : Status)
| StatusReadOnly (value : Status).

(** The loaded page, reduced to what its conditionals decide: which
    elements are there and what they show.  A dialog field is [None] when
    the dialog is not mounted, and holds its [open] prop otherwise. *)
Record PageView := mkPage {
  nonOwnerBanner : option string;
  heading : string;
  statusBadge : Status;
  editButton : bool;
  descriptionText : option string;
  membersButtonEnabled : bool;
  membersButtonTitle : string;
  avatars : list User.t;
  memberCountLabel : string;
  statusControl : StatusControl;
  teamButton : bool;
  addTicketButton : bool;
  deleteButton : bool;
  kanbanProjectId : string;
  kanbanOnAddTicket : bool;
  createTicketDialog : option bool;
  ticketDetailDialog : option string;
  teamManagementDialog : option bool;
  editProjectDialog : option bool;
}.

Inductive View :=
| Spinner
| NotFound
| Page (v : PageView).

(** What the component returns for hook state [s]: the two early returns,
    then the page. *)
Definition render (s : State.t) : View :=
  let userRole := State.userRole s in
  if State.isLoading s then Spinner else
  match State.project s with
  | None => NotFound
  | Some project =>
    let memberUsers := getMemberUsers project in
    Page
      {| nonOwnerBanner :=
           if negb (isOwner userRole) then
             Some (if bool_decide (userRole = Some Role.admin)
                   then "Administrateur" else "Membre de l'équipe")
           else None;
         heading := Project.name project;
         statusBadge := Project.status project;
         editButton := canEditProject userRole;
         descriptionText :=
           if truthy (Project.description project)
           then Project.description project else None;
         membersButtonEnabled := canManageTeam userRole;
         membersButtonTitle :=
           if canManageTeam userRole then "Gérer l'équipe"
           else "Membres du projet";
         avatars := memberUsers;
         memberCountLabel :=
           pretty (length memberUsers) +:+ " membre" +:+
           (if bool_decide (length memberUsers ≠ 1) then "s" else "");
         statusControl :=
           if canChangeStatus userRole
           then StatusSelect (Project.status project)
           else StatusReadOnly (Project.status project);
         teamButton := canManageTeam userRole;
         addTicketButton := canCreateTicket userRole;
         deleteButton := canDeleteProject userRole;
         kanbanProjectId := Project._id project;
         kanbanOnAddTicket := canCreateTicket userRole;
         createTicketDialog :=
           if canCreateTicket userRole
           then Some (State.createTicketOpen s) else None;
         ticketDetailDialog := State.selectedTicketId s;
         teamManagementDialog :=
           if canManageTeam userRole
           then Some (State.teamDialogOpen s) else None;
         editProjectDialog :=
           if canEditProject userRole
           then Some (State.editProjectOpen s) else None |}
  end.

(** The handlers of the render that shows world [w]: their closures hold
    the [project] and [userRole] of that render. *)
Definition statusHandler (svc : projectService.t) (w : World)
    (status : Status) : Eff unit :=
  handleStatusChange svc (State.project (state w)) (State.userRole (state w))
    status.

Definition deleteHandler (svc : projectService.t) (w : World) : Eff unit :=
  handleDelete svc (State.project (state w)) (State.userRole (state w)).

(** ** The spec's scenario as a running example *)

Definition p1 : Project.t :=
  {| Project._id := "p1"; Project.name := "Demo"; Project.description := None;
     Project.status := Actif; Project.owner := Bare "u1";
     Project.admins := Some []; Project.team := Some [Bare "u2"] |}.

Definition noError : Error.t := {| Error.response := None |}.

Definition svc_ok : projectService.t :=
  {| projectService.getById := λ _, Resolved p1;
     projectService.update := λ _ s, Resolved (Project.with_status p1 s);
     projectService.delete := λ _, Resolved tt |}.

Definition svc_down (e : Error.t) : projectService.t :=
  {| projectService.getById := λ _, Rejected e;
     projectService.update := λ _ _, Rejected e;
     projectService.delete := λ _, Rejected e |}.

Definition mounted : World := {| state := State.initial; log := [] |}.

(** The page once [p1] is loaded with role [r]. *)
Definition viewing (r : option Role.t) : World :=
  {| state := {| State.project := Some p1; State.isLoading := false;
                 State.createTicketOpen := false;
                 State.selectedTicketId := None;
                 State.teamDialogOpen := false;
                 State.editProjectOpen := false; State.userRole := r |};
     log := [] |}.

(** A rejection carrying a server message. *)
Definition serverError (m : string) : Error.t :=
  {| Error.response :=
       Some {| Error.data := Some {| Error.message := Some m |} |} |}.

(** Three records: [ann] and [ann_again] share [_id] and differ in [id];
    [bob] shares [id] with [ann] and differs in [_id]. *)
Definition ann : User.t :=
  {| User._id := Some "a"; User.id := Some "x"; User.name := "Ann" |}.
Definition ann_again : User.t :=
  {| User._id := Some "a"; User.id := Some "y"; User.name := "Ann B." |}.
Definition bob : User.t :=
  {| User._id := Some "b"; User.id := Some "x"; User.name := "Bob" |}.

Definition p2 : Project.t :=
  {| Project._id := "p2"; Project.name := "Team"; Project.description := None;
     Project.status := Actif; Project.owner := Embedded ann;
     Project.admins := Some [Bare "c"; Embedded ann_again; Embedded bob];
     Project.team := Some [Embedded bob; Bare "a"] |}.

(** A data-access module that serves project [p] and accepts every
    mutation. *)
Definition svc_for (p : Project.t) : projectService.t :=
  {| projectService.getById := λ _, Resolved p;
     projectService.update := λ _ s, Resolved (Project.with_status p s);
     projectService.delete := λ _, Resolved tt |}.

(** A project whose memberships are all bare identifiers. *)
Definition p3 : Project.t :=
  {| Project._id := "p3"; Project.name := "Bare"; Project.description := None;
     Project.status := Inactif; Project.owner := Bare "u1";
     Project.admins := Some [Bare "u2"]; Project.team := None |}.

(** A project one of whose admins is [null], ahead of ["u5"]. *)
Definition p4 : Project.t :=
  {| Project._id := "p4"; Project.name := "Gap"; Project.description := None;
     Project.status := Actif; Project.owner := Bare "u1";
     Project.admins := Some [Null; Bare "u5"]; Project.team := None |}.

(** ** Specification-level notions *)

(** The hook state with the [project] cell replaced. *)
Definition with_project (s : State.t) (p : option Project.t) : State.t :=
  {| State.project := p;
     State.isLoading := State.isLoading s;
     State.createTicketOpen := State.createTicketOpen s;
     State.selectedTicketId := State.selectedTicketId s;
     State.teamDialogOpen := State.teamDialogOpen s;
     State.editProjectOpen := State.editProjectOpen s;
     State.userRole := State.userRole s |}.

(** The dialog cells, which no handler of this page writes. *)
Definition dialog_cells (s : State.t) : bool * option string * bool * bool :=
  (State.createTicketOpen s, State.selectedTicketId s,
   State.teamDialogOpen s, State.editProjectOpen s).

(** The page view after a status change: badge and control replaced. *)
Definition restatus (v : PageView) (st : Status) : PageView :=
  {| nonOwnerBanner := nonOwnerBanner v; heading := heading v;
     statusBadge := st; editButton := editButton v;
     descriptionText := descriptionText v;
     membersButtonEnabled := membersButtonEnabled v;
     membersButtonTitle := membersButtonTitle v; avatars := avatars v;
     memberCountLabel := memberCountLabel v;
     statusControl := match statusControl v with
                      | StatusSelect _ => StatusSelect st
                      | StatusReadOnly _ => StatusReadOnly st
                      end;
     teamButton := teamButton v; addTicketButton := addTicketButton v;
     deleteButton := deleteButton v; kanbanProjectId := kanbanProjectId v;
     kanbanOnAddTicket := kanbanOnAddTicket v;
     createTicketDialog := createTicketDialog v;
     ticketDetailDialog := ticketDetailDialog v;
     teamManagementDialog := teamManagementDialog v;
     editProjectDialog := editProjectDialog v |}.


(** The message a rejection carries from the server, if any. *)
Definition server_message (e : Error.t) : option string :=
  match Error.response e with
  | Some r =>
    match Error.data r with
    | Some d => Error.message d
    | None => None
    end
  | None => None
  end.

Definition errorToast (msg : string) : Toast :=
  {| title := "Erreur"; description := msg; variant := Some "destructive" |}.

Definition statusChanged (s : Status) : Toast :=
  {| title := "Statut modifié";
     description := "Le projet est maintenant " +:+ dquote +:+ status_text s +:+
                    dquote +:+ ".";
     variant := None |}.

Definition projectDeleted (p : Project.t) : Toast :=
  {| title := "Projet supprimé";
     description := "Le projet " +:+ dquote +:+ Project.name p +:+ dquote +:+
                    " a été supprimé.";
     variant := Some "destructive" |}.


(** The comparable key of an embedded record, in the spec's words: the
    [_id] field when it is present (truthy), the [id] field otherwise. *)
Definition comparable_key (u : User.t) : option string :=
  match User._id u with
  | Some k => if decide (k = "") then User.id u else Some k
  | None => User.id u
  end.

(** Normalizing a membership to an identifier (role derivation, step 1);
    [null] names nobody. *)
Definition normalize (m : Member) : option string :=
  match m with
  | Bare s => Some s
  | Embedded u => comparable_key u
  | Null => None
  end.

(** The sequence held by [admins] or [team]; nothing when not an array. *)
Definition members_of (a : option (list Member)) : list Member := default [] a.

(** [U] is listed in [a]: some normalized element equals [U]. *)
Definition listed (U : string) (a : option (list Member)) : Prop :=
  ∃ m, m ∈ members_of a ∧ normalize m = Some U.

(** Role derivation as the spec's four ordered steps. *)
Definition derived_role (data : Project.t) (U : string) : option Role.t :=
  if decide (normalize (Project.owner data) = Some U) then Some Role.owner
  else if decide (Exists (λ m, normalize m = Some U)
                         (members_of (Project.admins data))) then Some Role.admin
  else if decide (Exists (λ m, normalize m = Some U)
                         (members_of (Project.team data))) then Some Role.team
  else None.

(** What [some] answers when it looks for [U] in [l]: [None] when it meets
    a [null] before any element naming [U]. *)
Fixpoint scan (U : string) (l : list Member) : option bool :=
  match l with
  | [] => Some false
  | Null :: _ => None
  | m :: l' => if decide (normalize m = Some U) then Some true else scan U l'
  end.

(** The role the derivation reaches, or [None] when it reads a property of
    [null] first. *)
Definition role_outcome (data : Project.t) (U : string)
    : option (option Role.t) :=
  match Project.owner data with
  | Null => None
  | o =>
    if decide (normalize o = Some U) then Some (Some Role.owner) else
    match scan U (members_of (Project.admins data)) with
    | None => None
    | Some true => Some (Some Role.admin)
    | Some false =>
      match scan U (members_of (Project.team data)) with
      | None => None
      | Some true => Some (Some Role.team)
      | Some false => Some None
      end
    end
  end.

(** A [null] is the first element of [l] that is [null] or names [U]. *)
Definition null_first (U : string) (l : list Member) : Prop :=
  ∃ l1 l2, l = l1 ++ Null :: l2 ∧
           ∀ m, m ∈ l1 → m ≠ Null ∧ normalize m ≠ Some U.

(** The derivation reads a property of [null]: at the owner, or in [admins]
    before any admin naming [U], or, [U] not being an admin, in [team]
    before any member naming [U]. *)
Definition null_reached (data : Project.t) (U : string) : Prop :=
  Project.owner data = Null ∨
  (normalize (Project.owner data) ≠ Some U ∧
   (null_first U (members_of (Project.admins data)) ∨
    ((Null ∉ members_of (Project.admins data)) ∧
     ¬ listed U (Project.admins data) ∧
     null_first U (members_of (Project.team data))))).

(** The embedded records among memberships; bare identifiers and [null]
    are skipped. *)
Definition embedded_records (l : list Member) : list User.t :=
  omap (λ m, match m with Embedded u => Some u | Bare _ | Null => None end) l.

(** All memberships of a project: owner, then admins, then team. *)
Definition memberships (p : Project.t) : list Member :=
  Project.owner p ::
    (members_of (Project.admins p) ++ members_of (Project.team p)).

(** Keeping, in order, the records whose key was not yet added. *)
Fixpoint first_seen (seen : gset (option string)) (l : list User.t)
    : list User.t :=
  match l with
  | [] => []
  | u :: l' =>
    if decide (comparable_key u ∈ seen) then first_seen seen l'
    else u :: first_seen ({[comparable_key u]} ∪ seen) l'
  end.

(** The keys of a list of records, as the set [userIds] holds them. *)
Definition keys (l : list User.t) : gset (option string) :=
  list_to_set (comparable_key <$> l).

(** The callback both [forEach] loops of [getMemberUsers] run. *)
Definition addIfNew (acc : list User.t * gset (option string)) (m : Member)
    : list User.t * gset (option string) :=
  match m with
  | Embedded a =>
    let k := User._id a ||| User.id a in
    if decide (k ∈ acc.2) then acc else (push acc.1 a, {[k]} ∪ acc.2)
  | Bare _ | Null => acc
  end.

(** Unfolding the monad: every handler is a finite composition of these. *)
Ltac eff_unfold :=
  unfold run, try_catch_finally, try_catch, toast, navigate, console_error,
    setProject, setIsLoading, setUserRole, emit, modify, await, throw,
    mbind, eff_bind, mret, eff_ret in *.

(** No membership of a given project is [null]. *)
Ltac no_null :=
  unfold memberships; simpl; rewrite ?not_elem_of_cons;
  split_and?; try discriminate; apply not_elem_of_nil.

(** The hook state with the three cells [loadProject] writes replaced. *)
Definition loaded (s : State.t) (data : Project.t) (r : option Role.t) :=
  {| State.project := Some data;
     State.isLoading := false;
     State.createTicketOpen := State.createTicketOpen s;
     State.selectedTicketId := State.selectedTicketId s;
     State.teamDialogOpen := State.teamDialogOpen s;
     State.editProjectOpen := State.editProjectOpen s;
     State.userRole := r |}.

Definition not_loading (s : State.t) :=
  {| State.project := State.project s;
     State.isLoading := false;
     State.createTicketOpen := State.createTicketOpen s;
     State.selectedTicketId := State.selectedTicketId s;
     State.teamDialogOpen := State.teamDialogOpen s;
     State.editProjectOpen := State.editProjectOpen s;
     State.userRole := State.userRole s |}.

Definition loadFailed : Toast :=
  {| title := "Erreur";
     description := "Impossible de charger le projet";
     variant := Some "destructive" |}.

(** The identifier test [loadProject] passes to [some], under one name. *)
Definition idTest (U : string) (m : Member) : Eff bool :=
  mid ← match m return Eff (option string) with
        | Embedded a => mret (User._id a ||| User.id a)
        | Null => throw typeError
        | Bare s => mret (Some s)
        end;
  mret (mid === Some U).

(** The role derivation of [loadProject], from [ownerId] on, under one
    name. *)
Definition roleStep (U : string) (data : Project.t) : Eff unit :=
  ownerId ←
    match Project.owner data return Eff (option string) with
    | Embedded o => mret (User._id o ||| User.id o)
    | Null => throw typeError
    | Bare s => mret (Some s)
    end;
  if Some U === ownerId then setUserRole (Some Role.owner)
  else
    isAdmin ← array_some (Project.admins data) (idTest U);
    if isAdmin : bool then setUserRole (Some Role.admin)
    else
      isTeam ← array_some (Project.team data) (idTest U);
      if isTeam : bool then setUserRole (Some Role.team)
      else setUserRole None.

(** The world a load leaves after a resolved fetch: with the derived role
    when the derivation completes, and with the role it found, after the
    [catch] block, when the derivation threw. *)
Definition after_fetch (w : World) (i : string) (data : Project.t)
    (o : option (option Role.t)) : World :=
  match o with
  | Some r =>
    {| state := loaded (state w) data r; log := log w ++ [CallGetById i] |}
  | None =>
    {| state := loaded (state w) data (State.userRole (state w));
       log := log w ++ [CallGetById i; ShowToast loadFailed;
                        ConsoleError "Erreur de chargement du projet:"
                          typeError;
                        Navigate "/"] |}
  end.

(** ** Basic facts about the embedding *)

Lemma truthy_Some s : truthy (Some s) = true ↔ s ≠ "".
Proof.
  simpl. destruct (String.eqb_spec s ""); simpl; split; congruence.
Qed.

Lemma js_or_comparable_key u : User._id u ||| User.id u = comparable_key u.
Proof.
  unfold js_or, comparable_key, truthy.
  destruct (User._id u) as [k|]; [|done].
  destruct (String.eqb_spec k ""); simpl; case_decide; congruence.
Qed.

Lemma strict_eq_true a b : (a === b) = true ↔ a = b.
Proof. unfold strict_eq. apply bool_decide_eq_true. Qed.

Lemma listed_Exists U a :
  listed U a ↔ Exists (λ m, normalize m = Some U) (members_of a).
Proof. unfold listed. by rewrite Exists_exists. Qed.

Example scenario_team :
  State.userRole (state (run (loadProject (Some "p1") "u2" svc_ok) mounted))
  = Some Role.team.
Proof. reflexivity. Qed.

Example scenario_owner :
  State.userRole (state (run (loadProject (Some "p1") "u1" svc_ok) mounted))
  = Some Role.owner.
Proof. reflexivity. Qed.

Lemma loadProject_absent id U svc w :
  truthy id = false → loadProject id U svc w = (Normal tt, w).
Proof.
  intros Hid. unfold loadProject. destruct id as [i|]; [|done].
  by rewrite Hid.
Qed.

(** The callback of [loadProject] and [some]. *)
Lemma idTest_eq U m w :
  idTest U m w
  = match m with
    | Null => (Thrown typeError, w)
    | _ => (Normal (bool_decide (normalize m = Some U)), w)
    end.
Proof.
  destruct m as [s|u|]; try reflexivity.
  unfold idTest, mbind, eff_bind, mret, eff_ret, strict_eq. simpl.
  by rewrite js_or_comparable_key.
Qed.

Lemma some_cons f m l w :
  some f (m :: l) w
  = match f m w with
    | (Normal b, w') => if b then (Normal true, w') else some f l w'
    | (Thrown e, w') => (Thrown e, w')
    end.
Proof.
  cbn [some]. unfold mbind, eff_bind.
  destruct (f m w) as [[[]|e] w']; reflexivity.
Qed.

Lemma some_scan U l w :
  some (idTest U) l w
  = match scan U l with
    | Some b => (Normal b, w)
    | None => (Thrown typeError, w)
    end.
Proof.
  induction l as [|m l IH]; [done|].
  rewrite some_cons, idTest_eq. destruct m as [s|u|]; [| |done].
  all: cbn [scan]; case_decide;
    [ by rewrite bool_decide_eq_true_2
    | by rewrite bool_decide_eq_false_2 ].
Qed.


Lemma scan_cons U m l :
  m ≠ Null →
  scan U (m :: l)
  = if decide (normalize m = Some U) then Some true else scan U l.
Proof. by destruct m. Qed.

Lemma scan_None U l : scan U l = None ↔ null_first U l.
Proof.
  unfold null_first. induction l as [|m l IH].
  - split; [done|]. intros (l1 & l2 & Hl & _). by destruct l1.
  - destruct (decide (m = Null)) as [->|Hm].
    { split; [|done]. intros _. exists [], l. split; [done|].
      by intros m ?%elem_of_nil. }
    rewrite scan_cons by done. case_decide as Hk.
    + split; [done|]. intros (l1 & l2 & Hl & Hfree).
      destruct l1 as [|m' l1]; [by simplify_eq/=|].
      injection Hl as <- Hl.
      destruct (Hfree m) as [_ ?]; [by left | done].
    + rewrite IH. split.
      * intros (l1 & l2 & -> & Hfree). exists (m :: l1), l2. split; [done|].
        intros m' [-> | Hin]%elem_of_cons; auto.
      * intros (l1 & l2 & Hl & Hfree).
        destruct l1 as [|m' l1]; [by simplify_eq/=|].
        injection Hl as <- Hl.
        exists l1, l2. split; [done|]. intros m' Hin. apply Hfree. by right.
Qed.

Lemma scan_true U l :
  scan U l = Some true → Exists (λ m, normalize m = Some U) l.
Proof.
  induction l as [|m l IH]; [done|].
  destruct (decide (m = Null)) as [->|Hm]; [done|].
  rewrite scan_cons by done.
  case_decide; [by left | right; auto].
Qed.

Lemma scan_false U l :
  scan U l = Some false →
  (Null ∉ l) ∧ ¬ Exists (λ m, normalize m = Some U) l.
Proof.
  induction l as [|m l IH].
  - intros _. split; [apply not_elem_of_nil | by intros ?%Exists_nil].
  - destruct (decide (m = Null)) as [->|Hm]; [done|].
    rewrite scan_cons by done.
    case_decide; [done|]. intros [Hnn Hno]%IH. split.
    + by apply not_elem_of_cons.
    + rewrite Exists_cons. tauto.
Qed.

Lemma role_outcome_owner data U :
  normalize (Project.owner data) = Some U →
  role_outcome data U = Some (Some Role.owner).
Proof.
  unfold role_outcome. intros Ho.
  destruct (Project.owner data); [| |done]; by rewrite decide_True.
Qed.

(** Either the derivation throws or it reaches the role of the cascade. *)
Lemma role_outcome_dichotomy data U :
  role_outcome data U = None
  ∨ role_outcome data U = Some (derived_role data U).
Proof.
  unfold role_outcome, derived_role.
  destruct (Project.owner data) as [s|u|] eqn:Eo; [| |by left].
  all: case_decide as Ho; [by right|].
  all: destruct (scan U (members_of (Project.admins data))) as [[]|] eqn:Ea;
    [ apply scan_true in Ea; rewrite decide_True by done; by right
    | apply scan_false in Ea as [_ Ea]; rewrite decide_False by done
    | by left ].
  all: destruct (scan U (members_of (Project.team data))) as [[]|] eqn:Et;
    [ apply scan_true in Et; rewrite decide_True by done; by right
    | apply scan_false in Et as [_ Et]; rewrite decide_False by done; by right
    | by left ].
Qed.

Lemma role_outcome_None data U :
  role_outcome data U = None ↔ null_reached data U.
Proof.
  unfold role_outcome, null_reached. rewrite listed_Exists, <- !scan_None.
  destruct (Project.owner data) as [s|u|] eqn:Eo; [| |split; auto].
  all: case_decide as Ho; [split; [done|]; intros [?|[? _]]; done|].
  all: destruct (scan U (members_of (Project.admins data))) as [[]|] eqn:Ea.
  all: try (split; [done|]; intros [?|[_ [?|(Hnn & Hno & _)]]]; try done;
            apply scan_true in Ea; done).
  all: try (split; [intros _; right; split; [done|]; by left | done]).
  all: apply scan_false in Ea as [Hnn Hno].
  all: destruct (scan U (members_of (Project.team data))) as [[]|] eqn:Et.
  all: try (split; [done|]; intros [?|[_ [?|(_ & _ & ?)]]]; done).
  all: split; [intros _; right; split; [done|]; right; done | done].
Qed.

Lemma role_outcome_null_free data U :
  Null ∉ memberships data →
  role_outcome data U = Some (derived_role data U).
Proof.
  intros Hnn. destruct (role_outcome_dichotomy data U) as [Hn | H]; [|done].
  exfalso. apply role_outcome_None in Hn. apply Hnn. unfold memberships.
  destruct Hn as [-> | (_ & [(l1 & l2 & Hl & _) | (_ & _ & l1 & l2 & Hl & _)])].
  - by left.
  - right. rewrite Hl. apply elem_of_app. left.
    apply elem_of_app. right. by left.
  - right. rewrite Hl. apply elem_of_app. right.
    apply elem_of_app. right. by left.
Qed.

Lemma bind_eq {A B} (m : Eff A) (f : A → Eff B) w :
  (m ≫= f) w
  = match m w with
    | (Normal a, w') => f a w'
    | (Thrown e, w') => (Thrown e, w')
    end.
Proof. reflexivity. Qed.

Lemma array_some_scan a U w :
  array_some a (idTest U) w
  = match scan U (members_of a) with
    | Some b => (Normal b, w)
    | None => (Thrown typeError, w)
    end.
Proof. destruct a as [l|]; [apply some_scan | reflexivity]. Qed.

Lemma roleStep_eq U data w :
  roleStep U data w
  = match role_outcome data U with
    | Some r => setUserRole r w
    | None => (Thrown typeError, w)
    end.
Proof.
  unfold roleStep, role_outcome. rewrite bind_eq.
  destruct (Project.owner data) as [s|u|]; [| |done].
  all: unfold mret at 1, eff_ret at 1, strict_eq at 1; simpl normalize;
    rewrite ?js_or_comparable_key.
  all: case_decide as Ho;
    [ by rewrite bool_decide_eq_true_2
    | rewrite bool_decide_eq_false_2 by congruence ].
  all: rewrite bind_eq, array_some_scan.
  all: destruct (scan U (members_of (Project.admins data))) as [[]|];
    [done| |done].
  all: rewrite bind_eq, array_some_scan.
  all: by destruct (scan U (members_of (Project.team data))) as [[]|].
Qed.

Lemma loadProject_resolved_outcome i U svc data w :
  truthy (Some i) = true →
  projectService.getById svc i = Resolved data →
  loadProject (Some i) U svc w
  = (Normal tt, after_fetch w i data (role_outcome data U)).
Proof.
  intros Hid Hget. unfold loadProject. rewrite Hid.
  change (negb true) with false. cbv iota.
  change (array_some ?a (λ admin, _)) with (array_some a (idTest U)).
  change (try_catch_finally _ ?h ?f w)
    with (try_catch_finally
            (setIsLoading true;;
             data ← (emit (CallGetById i);;
                     await (projectService.getById svc i));
             setProject (Some data);; roleStep U data) h f w).
  unfold try_catch_finally.
  cbv beta iota zeta delta [mbind eff_bind setIsLoading modify emit].
  rewrite Hget.
  cbv beta iota zeta delta [mbind eff_bind await setProject modify state log].
  rewrite roleStep_eq. unfold after_fetch.
  destruct (role_outcome data U) as [r|].
  - cbv beta iota zeta delta [setUserRole setIsLoading modify state log].
    unfold loaded. cbn. reflexivity.
  - eff_unfold. cbn. unfold loaded, loadFailed. by rewrite <- !app_assoc.
Qed.

Lemma loadProject_resolved i U svc data w :
  truthy (Some i) = true →
  projectService.getById svc i = Resolved data →
  Null ∉ memberships data →
  loadProject (Some i) U svc w =
    (Normal tt, {| state := loaded (state w) data (derived_role data U);
                   log := log w ++ [CallGetById i] |}).
Proof.
  intros Hid Hget Hnn. rewrite (loadProject_resolved_outcome _ _ _ _ _ Hid Hget).
  by rewrite role_outcome_null_free.
Qed.

(** A load whose only outside call was the fetch has derived the role. *)
Lemma loadProject_completed i U svc data w :
  truthy (Some i) = true →
  projectService.getById svc i = Resolved data →
  log (run (loadProject (Some i) U svc) w) = log w ++ [CallGetById i] →
  loadProject (Some i) U svc w =
    (Normal tt, {| state := loaded (state w) data (derived_role data U);
                   log := log w ++ [CallGetById i] |}).
Proof.
  intros Hid Hget. unfold run.
  rewrite (loadProject_resolved_outcome _ _ _ _ _ Hid Hget).
  destruct (role_outcome_dichotomy data U) as [-> | ->]; [|done].
  simpl. intros Hlog%app_inv_head. discriminate.
Qed.

Lemma loadProject_rejected i U svc e w :
  truthy (Some i) = true →
  projectService.getById svc i = Rejected e →
  loadProject (Some i) U svc w =
    (Normal tt, {| state := not_loading (state w);
                   log := log w ++ [CallGetById i; ShowToast loadFailed;
                                    ConsoleError "Erreur de chargement du projet:" e;
                                    Navigate "/"] |}).
Proof.
  intros Hid Hget. unfold loadProject. rewrite Hid. simpl negb. cbv iota.
  eff_unfold. rewrite Hget. cbn. unfold not_loading, loadFailed.
  by rewrite <- !app_assoc.
Qed.

(** ** Role derivation on load *)

(** C1 asks, for every project and user, for the role of the cascade owner,
    admin, team, none.  The derivation reads [_id] of every membership whose
    [typeof] is ['object'], [null] included, where [getMemberUsers] tests
    the membership first.  For [p4], whose admins are [null] and then
    ["u5"], and user ["u5"], the cascade gives admin; the load instead ends
    in its [catch] block: the project is stored, the error toast shown, the
    list navigated to, and the role cell is left as it was, null at mount
    and owner on a page that held owner. *)
Theorem loadProject_null_admin_skips_role :
  derived_role p4 "u5" = Some Role.admin ∧
  (let w' := run (loadProject (Some "p4") "u5" (svc_for p4)) mounted in
   State.userRole (state w') = None ∧
   State.project (state w') = Some p4 ∧
   State.isLoading (state w') = false ∧
   log w' = [CallGetById "p4"; ShowToast loadFailed;
             ConsoleError "Erreur de chargement du projet:" typeError;
             Navigate "/"]) ∧
  State.userRole
    (state (run (loadProject (Some "p4") "u5" (svc_for p4))
                (viewing (Some Role.owner))))
  = Some Role.owner.
Proof. vm_compute. by repeat split. Qed.

(** X18: when no membership of the fetched project is [null], the role a
    load stores is the one of the cascade on normalized identifiers: owner
    as soon as the normalized owner equals [U] (whatever [admins] and [team]
    hold), otherwise admin if [U] is listed in [admins], otherwise team if
    listed in [team], otherwise none. *)
Theorem role_cascade_without_null i U svc data w :
  truthy (Some i) = true →
  projectService.getById svc i = Resolved data →
  Null ∉ memberships data →
  let r := State.userRole (state (run (loadProject (Some i) U svc) w)) in
  (r = Some Role.owner ∨ r = Some Role.admin ∨ r = Some Role.team ∨ r = None) ∧
  (normalize (Project.owner data) = Some U → r = Some Role.owner) ∧
  (normalize (Project.owner data) ≠ Some U →
     listed U (Project.admins data) → r = Some Role.admin) ∧
  (normalize (Project.owner data) ≠ Some U →
     ¬ listed U (Project.admins data) →
     listed U (Project.team data) → r = Some Role.team) ∧
  (normalize (Project.owner data) ≠ Some U →
     ¬ listed U (Project.admins data) →
     ¬ listed U (Project.team data) → r = None).
Proof.
  intros Hid Hget Hnn. unfold run.
  rewrite (loadProject_resolved _ _ _ _ _ Hid Hget Hnn).
  cbn [snd state State.userRole loaded]. rewrite !listed_Exists.
  unfold derived_role.
  repeat case_decide; repeat split; intros; try done; auto.
Qed.

Lemma role_cascade_without_null_witness :
  State.userRole (state (run (loadProject (Some "p1") "u2" svc_ok) mounted))
  = Some Role.team.
Proof.
  destruct (role_cascade_without_null "p1" "u2" svc_ok p1 mounted
              eq_refl eq_refl) as (_ & _ & _ & Hteam & _).
  { unfold memberships. simpl. rewrite !not_elem_of_cons.
    split_and!; try discriminate. apply not_elem_of_nil. }
  apply Hteam.
  - simpl. discriminate.
  - intros (m & Hin & _). simpl in Hin. inversion Hin.
  - exists (Bare "u2"). split; [simpl; left | reflexivity].
Defined.

(** ** Permission flags *)

(** C2: each of the five permission flags holds exactly when the role is
    owner; for admin, team and none all five are false. *)
Theorem permission_flags_iff_owner (r : option Role.t) :
  (canEditProject r = true ↔ r = Some Role.owner) ∧
  (canDeleteProject r = true ↔ r = Some Role.owner) ∧
  (canManageTeam r = true ↔ r = Some Role.owner) ∧
  (canCreateTicket r = true ↔ r = Some Role.owner) ∧
  (canChangeStatus r = true ↔ r = Some Role.owner) ∧
  (r = Some Role.admin ∨ r = Some Role.team ∨ r = None →
     canEditProject r = false ∧ canDeleteProject r = false ∧
     canManageTeam r = false ∧ canCreateTicket r = false ∧
     canChangeStatus r = false).
Proof.
  unfold canEditProject, canDeleteProject, canManageTeam, canCreateTicket,
    canChangeStatus, isOwner.
  rewrite bool_decide_eq_true.
  split_and!; try done.
  intros [-> | [-> | ->]]; done.
Qed.

Lemma permission_flags_iff_owner_witness :
  canEditProject (Some Role.admin) = false ∧
  canDeleteProject (Some Role.admin) = false ∧
  canManageTeam (Some Role.admin) = false ∧
  canCreateTicket (Some Role.admin) = false ∧
  canChangeStatus (Some Role.admin) = false.
Proof.
  destruct (permission_flags_iff_owner (Some Role.admin))
    as (_ & _ & _ & _ & _ & H).
  apply H. left. reflexivity.
Defined.

(** ** Loading *)

(** C8: a load with a present identifier whose fetch is rejected completes
    with the loading flag false and the local project as it was (null stays
    null), after one error notification, one console report and a
    navigation to the project list. *)
Theorem loadProject_fetch_failure i U svc e w :
  truthy (Some i) = true →
  projectService.getById svc i = Rejected e →
  let w' := run (loadProject (Some i) U svc) w in
  fst (loadProject (Some i) U svc w) = Normal tt ∧
  State.isLoading (state w') = false ∧
  State.project (state w') = State.project (state w) ∧
  (State.project (state w) = None → State.project (state w') = None) ∧
  State.userRole (state w') = State.userRole (state w) ∧
  log w' = (log w ++ [CallGetById i; ShowToast loadFailed;
                      ConsoleError "Erreur de chargement du projet:" e;
                      Navigate "/"]) ∧
  Navigate "/" ∈ log w' ∧
  ShowToast loadFailed ∈ log w'.
Proof.
  intros Hid Hget. unfold run.
  rewrite (loadProject_rejected _ _ _ _ _ Hid Hget). simpl.
  repeat split; try done.
  all: set_solver.
Qed.

Lemma loadProject_fetch_failure_witness :
  let w' := run (loadProject (Some "p1") "u1" (svc_down noError)) mounted in
  State.isLoading (state w') = false ∧ State.project (state w') = None ∧
  Navigate "/" ∈ log w' ∧ ShowToast loadFailed ∈ log w'.
Proof.
  destruct (loadProject_fetch_failure "p1" "u1" (svc_down noError) noError
              mounted eq_refl eq_refl) as (_ & Hl & _ & Hp & _ & _ & Hn & Ht).
  split; [exact Hl|]. split; [apply Hp; reflexivity|]. split; assumption.
Defined.

(** C9 as stated fails: with no route identifier the guard returns before
    the [try], so the [finally] step never runs and the flag stays set. *)
Lemma loadProject_absent_id_keeps_loading :
  State.isLoading (state (run (loadProject None "u1" svc_ok) mounted)) ≠ false.
Proof. simpl. discriminate. Qed.

(** C9 (amended): a load with a present identifier ends with the loading
    flag cleared, whether the fetch resolves or is rejected; a load without
    one returns at once and changes nothing. *)
Theorem loadProject_clears_loading id U svc w :
  (truthy id = true →
     fst (loadProject id U svc w) = Normal tt ∧
     State.isLoading (state (run (loadProject id U svc) w)) = false) ∧
  (truthy id = false → loadProject id U svc w = (Normal tt, w)).
Proof.
  split; [|apply loadProject_absent].
  intros Hid. destruct id as [i|]; [|done]. unfold run.
  destruct (projectService.getById svc i) as [data|e] eqn:Hget.
  - rewrite (loadProject_resolved_outcome _ _ _ _ _ Hid Hget).
    by destruct (role_outcome data U).
  - by rewrite (loadProject_rejected _ _ _ _ _ Hid Hget).
Qed.

Lemma loadProject_clears_loading_witness :
  State.isLoading
    (state (run (loadProject (Some "p1") "u1" (svc_down noError)) mounted))
  = false.
Proof.
  destruct (loadProject_clears_loading (Some "p1") "u1" (svc_down noError)
              mounted) as [H _].
  apply H. reflexivity.
Defined.

(** ** Guarded mutations *)

Lemma js_or_else_server_message e fallback :
  js_or_else (r ← Error.response e; d ← Error.data r; Error.message d) fallback
  = match server_message e with
    | Some m => if decide (m = "") then fallback else m
    | None => fallback
    end.
Proof.
  unfold server_message. destruct (Error.response e) as [r|]; simpl; [|done].
  destruct (Error.data r) as [d|]; simpl; [|done].
  destruct (Error.message d) as [m|]; simpl; [|done].
  destruct (String.eqb_spec m ""); case_decide; congruence.
Qed.

(** C3: without the change-status permission, whatever status is requested,
    the handler only shows the access-denied notification: the hook state is
    untouched and no call reaches the update collaborator. *)
Theorem handleStatusChange_denied svc project userRole status w :
  canChangeStatus userRole = false →
  let w' := run (handleStatusChange svc project userRole status) w in
  fst (handleStatusChange svc project userRole status w) = Normal tt ∧
  state w' = state w ∧
  log w' = (log w ++ [ShowToast statusDenied]) ∧
  (∀ pid s, CallUpdate pid s ∈ log w' → CallUpdate pid s ∈ log w).
Proof.
  intros Hcan. unfold handleStatusChange. rewrite Hcan.
  destruct project as [p|]; eff_unfold; simpl; split_and!; try done.
  all: intros pid s; rewrite elem_of_app, list_elem_of_singleton;
    intros [H | H]; [done | discriminate].
Qed.

Lemma handleStatusChange_denied_witness :
  let w' := run (handleStatusChange svc_ok (Some p1) (Some Role.admin) Archive)
                (viewing (Some Role.admin)) in
  state w' = state (viewing (Some Role.admin)) ∧
  log w' = [ShowToast statusDenied].
Proof.
  destruct (handleStatusChange_denied svc_ok (Some p1) (Some Role.admin)
              Archive (viewing (Some Role.admin)) eq_refl) as (_ & Hs & Hl & _).
  split; [exact Hs | exact Hl].
Defined.

(** C4: without the delete permission the handler only shows the
    access-denied notification: no call reaches the delete collaborator and
    no navigation happens. *)
Theorem handleDelete_denied svc project userRole w :
  canDeleteProject userRole = false →
  let w' := run (handleDelete svc project userRole) w in
  fst (handleDelete svc project userRole w) = Normal tt ∧
  state w' = state w ∧
  log w' = (log w ++ [ShowToast deleteDenied]) ∧
  (∀ pid, CallDelete pid ∈ log w' → CallDelete pid ∈ log w) ∧
  (∀ path, Navigate path ∈ log w' → Navigate path ∈ log w).
Proof.
  intros Hcan. unfold handleDelete. rewrite Hcan.
  destruct project as [p|]; eff_unfold; simpl; split_and!; try done.
  all: intros x; rewrite elem_of_app, list_elem_of_singleton;
    intros [H | H]; [done | discriminate].
Qed.

Lemma handleDelete_denied_witness :
  let w' := run (handleDelete svc_ok (Some p1) (Some Role.team))
                (viewing (Some Role.team)) in
  state w' = state (viewing (Some Role.team)) ∧
  log w' = [ShowToast deleteDenied].
Proof.
  destruct (handleDelete_denied svc_ok (Some p1) (Some Role.team)
              (viewing (Some Role.team)) eq_refl) as (_ & Hs & Hl & _).
  split; [exact Hs | exact Hl].
Defined.

(** For reference, the two outcomes of a permitted delete. *)
Lemma handleDelete_resolved svc p userRole w :
  canDeleteProject userRole = true →
  projectService.delete svc (Project._id p) = Resolved tt →
  handleDelete svc (Some p) userRole w =
    (Normal tt, {| state := state w;
                   log := log w ++ [CallDelete (Project._id p);
                                    ShowToast (projectDeleted p);
                                    Navigate "/"] |}).
Proof.
  intros Hcan Hdel. unfold handleDelete. rewrite Hcan. simpl negb. cbv iota.
  eff_unfold. rewrite Hdel. cbn. unfold projectDeleted.
  by rewrite <- !app_assoc.
Qed.

Lemma handleDelete_rejected svc p userRole e w :
  canDeleteProject userRole = true →
  projectService.delete svc (Project._id p) = Rejected e →
  run (handleDelete svc (Some p) userRole) w =
    {| state := state w;
       log := log w ++ [CallDelete (Project._id p);
                        ShowToast (errorToast
                          (js_or_else (server_message e)
                             "Impossible de supprimer le projet"))] |}.
Proof.
  intros Hcan Hdel. unfold handleDelete. rewrite Hcan. simpl negb. cbv iota.
  eff_unfold. rewrite Hdel. cbn -[js_or_else]. unfold errorToast.
  by rewrite <- app_assoc.
Qed.

(** C5: when the update request made by the status handler is rejected, the
    hook state, and with it the local project and its status, is what it was
    before the call; the only effects are the request and one error
    notification, whose text is the server's message when the rejection
    carries a non-empty one and the generic text otherwise. *)
Theorem handleStatusChange_update_rejected svc p userRole status e w :
  canChangeStatus userRole = true →
  projectService.update svc (Project._id p) status = Rejected e →
  let w' := run (handleStatusChange svc (Some p) userRole status) w in
  fst (handleStatusChange svc (Some p) userRole status w) = Normal tt ∧
  state w' = state w ∧
  State.project (state w') = State.project (state w) ∧
  ∃ msg,
    log w' = (log w ++ [CallUpdate (Project._id p) status;
                        ShowToast (errorToast msg)]) ∧
    (∀ m, server_message e = Some m → m ≠ "" → msg = m) ∧
    (server_message e = None ∨ server_message e = Some "" →
       msg = "Impossible de modifier le statut").
Proof.
  intros Hcan Hupd. unfold handleStatusChange. rewrite Hcan. simpl negb.
  cbv iota. eff_unfold. rewrite Hupd. cbn -[js_or_else].
  rewrite js_or_else_server_message. split_and!; try done.
  eexists. split.
  { rewrite <- app_assoc. reflexivity. }
  split.
  - intros m -> Hm. by rewrite decide_False.
  - intros [-> | ->]; done.
Qed.

Lemma handleStatusChange_update_rejected_witness :
  let w' := run (handleStatusChange (svc_down (serverError "Statut invalide"))
                   (Some p1) (Some Role.owner) Archive)
                (viewing (Some Role.owner)) in
  state w' = state (viewing (Some Role.owner)) ∧
  log w' = [CallUpdate "p1" Archive; ShowToast (errorToast "Statut invalide")].
Proof.
  destruct (handleStatusChange_update_rejected
              (svc_down (serverError "Statut invalide")) p1 (Some Role.owner)
              Archive (serverError "Statut invalide")
              (viewing (Some Role.owner)) eq_refl eq_refl)
    as (_ & Hs & _ & msg & Hl & Hm & _).
  split; [exact Hs|].
  rewrite Hl. rewrite (Hm "Statut invalide" eq_refl); [reflexivity|].
  discriminate.
Defined.

(** C6: when that update request resolves, the local project becomes the
    captured one with only [status] replaced by the requested value, the
    other hook cells are untouched, and the only effects are the update
    request and the success notification: no fetch is issued. *)
Theorem handleStatusChange_update_resolved svc p userRole status p' w :
  canChangeStatus userRole = true →
  projectService.update svc (Project._id p) status = Resolved p' →
  let w' := run (handleStatusChange svc (Some p) userRole status) w in
  fst (handleStatusChange svc (Some p) userRole status w) = Normal tt ∧
  (∃ q, State.project (state w') = Some q ∧
        Project.status q = status ∧
        Project._id q = Project._id p ∧
        Project.name q = Project.name p ∧
        Project.description q = Project.description p ∧
        Project.owner q = Project.owner p ∧
        Project.admins q = Project.admins p ∧
        Project.team q = Project.team p) ∧
  State.isLoading (state w') = State.isLoading (state w) ∧
  State.userRole (state w') = State.userRole (state w) ∧
  State.createTicketOpen (state w') = State.createTicketOpen (state w) ∧
  State.selectedTicketId (state w') = State.selectedTicketId (state w) ∧
  State.teamDialogOpen (state w') = State.teamDialogOpen (state w) ∧
  State.editProjectOpen (state w') = State.editProjectOpen (state w) ∧
  log w' = (log w ++ [CallUpdate (Project._id p) status;
                      ShowToast (statusChanged status)]) ∧
  (∀ i, CallGetById i ∈ log w' → CallGetById i ∈ log w).
Proof.
  intros Hcan Hupd. unfold handleStatusChange. rewrite Hcan. simpl negb.
  cbv iota. eff_unfold. rewrite Hupd. cbn.
  split_and!; try done.
  - eexists. split; [reflexivity|]. by split_and!.
  - by rewrite <- app_assoc.
  - intros i. rewrite <- app_assoc, elem_of_app. intros [H | H]; [done|].
    apply elem_of_cons in H as [H | H]; [discriminate|].
    apply list_elem_of_singleton in H. discriminate.
Qed.

Lemma handleStatusChange_update_resolved_witness :
  let w' := run (handleStatusChange svc_ok (Some p1) (Some Role.owner) Archive)
                (viewing (Some Role.owner)) in
  State.project (state w') = Some (Project.with_status p1 Archive) ∧
  log w' = [CallUpdate "p1" Archive; ShowToast (statusChanged Archive)].
Proof.
  destruct (handleStatusChange_update_resolved svc_ok p1 (Some Role.owner)
              Archive (Project.with_status p1 Archive)
              (viewing (Some Role.owner)) eq_refl eq_refl)
    as (_ & _ & _ & _ & _ & _ & _ & _ & Hl & _).
  split; [reflexivity | exact Hl].
Defined.

(** ** The member list *)

Section first_seen_facts.
Implicit Types (l : list User.t) (seen : gset (option string)).

Lemma elem_of_embedded_records (ms : list Member) u :
  u ∈ embedded_records ms ↔ Embedded u ∈ ms.
Proof.
  unfold embedded_records. rewrite list_elem_of_omap. split.
  - intros (m & Hin & Hm). destruct m; try done. by simplify_eq.
  - intros Hin. by exists (Embedded u).
Qed.

Lemma embedded_records_app (ms1 ms2 : list Member) :
  embedded_records (ms1 ++ ms2) = embedded_records ms1 ++ embedded_records ms2.
Proof. apply omap_app. Qed.

Lemma elem_of_keys k l : k ∈ keys l ↔ ∃ u, u ∈ l ∧ comparable_key u = k.
Proof.
  unfold keys. rewrite elem_of_list_to_set, list_elem_of_fmap.
  split; intros (u & H1 & H2); exists u; by split.
Qed.

Lemma keys_cons u l : keys (u :: l) = {[comparable_key u]} ∪ keys l.
Proof. reflexivity. Qed.

Lemma first_seen_sublist seen l : first_seen seen l `sublist_of` l.
Proof.
  revert seen. induction l as [|u l IH]; intros seen; simpl; [done|].
  case_decide; [apply sublist_cons | apply sublist_skip]; apply IH.
Qed.

Lemma first_seen_fresh seen l u :
  u ∈ first_seen seen l → comparable_key u ∉ seen.
Proof.
  revert seen. induction l as [|v l IH]; intros seen; simpl.
  - by intros ?%elem_of_nil.
  - case_decide as Hv; [apply IH|].
    intros [-> | Hin]%elem_of_cons; [done|].
    apply IH in Hin. set_solver.
Qed.

Lemma first_seen_NoDup seen l : NoDup (comparable_key <$> first_seen seen l).
Proof.
  revert seen. induction l as [|v l IH]; intros seen; simpl.
  - constructor.
  - case_decide as Hv; [apply IH|].
    rewrite fmap_cons. apply NoDup_cons. split; [|apply IH].
    intros (u & Hk & Hin)%list_elem_of_fmap.
    apply first_seen_fresh in Hin. set_solver.
Qed.

Lemma first_seen_covers seen l u :
  u ∈ l → comparable_key u ∈ seen ∨ comparable_key u ∈ keys (first_seen seen l).
Proof.
  revert seen. induction l as [|v l IH]; intros seen; simpl.
  - by intros ?%elem_of_nil.
  - intros [-> | Hin]%elem_of_cons.
    + case_decide; [by left|]. right. rewrite keys_cons. set_solver.
    + case_decide as Hv; [by apply IH|].
      destruct (IH ({[comparable_key v]} ∪ seen) Hin) as [H | H];
        rewrite keys_cons; set_solver.
Qed.

Lemma first_seen_app seen l1 l2 :
  first_seen seen (l1 ++ l2)
  = first_seen seen l1 ++ first_seen (seen ∪ keys l1) l2.
Proof.
  revert seen. induction l1 as [|u l1 IH]; intros seen; simpl.
  - f_equal. unfold keys. simpl. set_solver.
  - rewrite keys_cons. case_decide as Hu.
    + rewrite IH. do 2 f_equal. set_solver.
    + simpl. rewrite IH. do 3 f_equal. set_solver.
Qed.

(** A record no earlier record shares its key with is kept. *)
Lemma first_seen_first l1 u l2 :
  (∀ v, v ∈ l1 → comparable_key v ≠ comparable_key u) →
  u ∈ first_seen ∅ (l1 ++ u :: l2).
Proof.
  intros Hfresh. rewrite first_seen_app, elem_of_app. right. simpl.
  rewrite decide_False; [by left|].
  rewrite elem_of_union, elem_of_keys. intros [H | (v & Hv & Hk)]; [done|].
  by apply (Hfresh v).
Qed.

Lemma forEach_addIfNew (ms : list Member) users seen :
  foldl addIfNew (users, seen) ms
  = (users ++ first_seen seen (embedded_records ms),
     seen ∪ keys (embedded_records ms)).
Proof.
  revert users seen. induction ms as [|m ms IH]; intros users seen.
  - simpl. rewrite app_nil_r. f_equal. unfold keys. simpl. set_solver.
  - destruct m as [s|a|]; [apply IH| |apply IH].
    change (embedded_records (Embedded a :: ms))
      with (a :: embedded_records ms).
    cbn [foldl addIfNew fst snd first_seen].
    rewrite js_or_comparable_key, keys_cons.
    case_decide as Ha; rewrite IH.
    + f_equal. set_solver.
    + unfold push. rewrite <- app_assoc. simpl. f_equal. set_solver.
Qed.

End first_seen_facts.

Lemma getMemberUsers_first_seen P :
  getMemberUsers P = first_seen ∅ (embedded_records (memberships P)).
Proof.
  unfold getMemberUsers, memberships.
  change (Project.owner P :: members_of (Project.admins P)
                             ++ members_of (Project.team P))
    with ([Project.owner P] ++ (members_of (Project.admins P)
                                ++ members_of (Project.team P))).
  rewrite !embedded_records_app, !first_seen_app.
  set (start := ([], ∅) : list User.t * gset (option string)).
  set (afterOwner := match Project.owner P with
                     | Embedded o => _
                     | Bare _ => _
                     | Null => _
                     end).
  assert (HO : afterOwner
               = (first_seen ∅ (embedded_records [Project.owner P]),
                  ∅ ∪ keys (embedded_records [Project.owner P]))).
  { subst afterOwner start. destruct (Project.owner P) as [s|o|]; simpl.
    - f_equal; unfold keys; simpl; set_solver.
    - rewrite js_or_comparable_key.
      rewrite !decide_False by set_solver.
      f_equal; unfold keys; simpl; set_solver.
    - f_equal; unfold keys; simpl; set_solver. }
  rewrite HO. clear HO afterOwner.
  set (afterAdmins := match Project.admins P with
                      | Some l => _
                      | None => _
                      end).
  assert (HA : afterAdmins
               = (first_seen ∅ (embedded_records [Project.owner P])
                  ++ first_seen (∅ ∪ keys (embedded_records [Project.owner P]))
                       (embedded_records (members_of (Project.admins P))),
                  (∅ ∪ keys (embedded_records [Project.owner P]))
                  ∪ keys (embedded_records (members_of (Project.admins P))))).
  { subst afterAdmins. destruct (Project.admins P) as [l|]; simpl.
    - apply (forEach_addIfNew l).
    - rewrite app_nil_r. f_equal; unfold keys; simpl; set_solver. }
  rewrite HA. clear HA afterAdmins.
  destruct (Project.team P) as [l|]; simpl.
  - change (foldl _ ?acc l) with (foldl addIfNew acc l).
    rewrite forEach_addIfNew. simpl. by rewrite app_assoc.
  - by rewrite !app_nil_r.
Qed.

Example getMemberUsers_p2 : getMemberUsers p2 = [ann; bob].
Proof. vm_compute. reflexivity. Qed.

(** C7: the member list holds no two records with the same normalized
    identifier; it holds embedded records of the project only, bare
    identifiers being skipped; and it keeps the order owner, admins, team,
    retaining for each identifier the first record met and skipping the
    later ones. *)
Theorem getMemberUsers_dedup_ordered P :
  NoDup (comparable_key <$> getMemberUsers P) ∧
  (∀ u, u ∈ getMemberUsers P → Embedded u ∈ memberships P) ∧
  ((∀ m, m ∈ memberships P → ∃ s, m = Bare s) → getMemberUsers P = []) ∧
  getMemberUsers P `sublist_of` embedded_records (memberships P) ∧
  getMemberUsers P = first_seen ∅ (embedded_records (memberships P)) ∧
  (∀ l1 u l2, embedded_records (memberships P) = l1 ++ u :: l2 →
     (∀ v, v ∈ l1 → comparable_key v ≠ comparable_key u) →
     u ∈ getMemberUsers P) ∧
  (∀ u, Embedded u ∈ memberships P →
     comparable_key u ∈ keys (getMemberUsers P)).
Proof.
  rewrite getMemberUsers_first_seen. split_and!.
  - apply first_seen_NoDup.
  - intros u Hu. apply elem_of_embedded_records.
    eapply sublist_subseteq; [apply first_seen_sublist | exact Hu].
  - intros Hbare.
    assert (embedded_records (memberships P) = []) as ->; [|done].
    apply elem_of_nil_inv. intros u Hu%elem_of_embedded_records.
    destruct (Hbare _ Hu) as [s Hs]. discriminate.
  - apply first_seen_sublist.
  - reflexivity.
  - intros l1 u l2 -> Hfresh. by apply first_seen_first.
  - intros u Hu%elem_of_embedded_records.
    destruct (first_seen_covers ∅ _ _ Hu) as [H | H]; [|done].
    by apply not_elem_of_empty in H.
Qed.

Lemma getMemberUsers_dedup_ordered_witness :
  NoDup (comparable_key <$> getMemberUsers p2) ∧
  getMemberUsers p2 `sublist_of` [ann; ann_again; bob; bob].
Proof.
  destruct (getMemberUsers_dedup_ordered p2) as (Hnd & _ & _ & Hsub & _).
  split; [exact Hnd | exact Hsub].
Defined.

(** ** Identifier normalization *)

Lemma comparable_key_truthy u k :
  User._id u = Some k → k ≠ "" → comparable_key u = Some k.
Proof. unfold comparable_key. intros -> Hk. by rewrite decide_False. Qed.

Lemma comparable_key_falsy u :
  User._id u = None ∨ User._id u = Some "" → comparable_key u = User.id u.
Proof. unfold comparable_key. by intros [-> | ->]. Qed.

Lemma derived_role_owner_iff data U :
  derived_role data U = Some Role.owner
  ↔ normalize (Project.owner data) = Some U.
Proof. unfold derived_role. repeat case_decide; split; done. Qed.

Lemma derived_role_admin_iff data U :
  derived_role data U = Some Role.admin
  ↔ normalize (Project.owner data) ≠ Some U ∧ listed U (Project.admins data).
Proof.
  rewrite listed_Exists. unfold derived_role.
  repeat case_decide; split; try done; intros []; done.
Qed.

Lemma derived_role_team_iff data U :
  derived_role data U = Some Role.team
  ↔ normalize (Project.owner data) ≠ Some U ∧
    ¬ listed U (Project.admins data) ∧ listed U (Project.team data).
Proof.
  rewrite !listed_Exists. unfold derived_role.
  repeat case_decide; split; try done; intros (? & ? & ?); done.
Qed.

Lemma listed_singleton U u :
  listed U (Some [Embedded u]) ↔ comparable_key u = Some U.
Proof.
  unfold listed, members_of. simpl. split.
  - intros (m & ->%list_elem_of_singleton & Hm). exact Hm.
  - intros Hk. exists (Embedded u). split; [by apply list_elem_of_singleton|].
    exact Hk.
Qed.

Lemma derived_role_cases data U :
  (normalize (Project.owner data) = Some U
   ∧ derived_role data U = Some Role.owner) ∨
  (normalize (Project.owner data) ≠ Some U
   ∧ listed U (Project.admins data)
   ∧ derived_role data U = Some Role.admin) ∨
  (normalize (Project.owner data) ≠ Some U
   ∧ ¬ listed U (Project.admins data) ∧ listed U (Project.team data)
   ∧ derived_role data U = Some Role.team) ∨
  (normalize (Project.owner data) ≠ Some U
   ∧ ¬ listed U (Project.admins data) ∧ ¬ listed U (Project.team data)
   ∧ derived_role data U = None).
Proof.
  rewrite !listed_Exists. unfold derived_role.
  repeat case_decide; tauto.
Qed.

(** C10: the key of an embedded record is its [_id] when that is truthy and
    its [id] otherwise.  Role derivation compares the current user with this
    key at the owner, admin and team positions: an embedded owner whose key
    is the current user gives owner whatever else the project holds, and
    every load that goes through without an error (as every load of a
    project free of [null] does) has classified the user by these keys
    alone.  The member list keeps one record per key.  So a record whose
    [_id] and [id] disagree counts under its [_id] only. *)
Theorem normalization_prefers__id (u : User.t) :
  (∀ k, User._id u = Some k → k ≠ "" → comparable_key u = Some k) ∧
  (User._id u = None ∨ User._id u = Some "" → comparable_key u = User.id u) ∧
  (∀ i U svc data w,
     truthy (Some i) = true →
     projectService.getById svc i = Resolved data →
     let w' := run (loadProject (Some i) U svc) w in
     let r := State.userRole (state w') in
     (Project.owner data = Embedded u → comparable_key u = Some U →
        r = Some Role.owner) ∧
     (Null ∉ memberships data → log w' = log w ++ [CallGetById i]) ∧
     (log w' = log w ++ [CallGetById i] →
        (Project.owner data = Embedded u →
           (r = Some Role.owner ↔ comparable_key u = Some U) ∧
           (∀ k j, User._id u = Some k → k ≠ "" → User.id u = Some j →
              j ≠ k →
              (U = k → r = Some Role.owner) ∧
              (U = j → r ≠ Some Role.owner))) ∧
        (r = Some Role.admin
         ↔ normalize (Project.owner data) ≠ Some U
           ∧ listed U (Project.admins data)) ∧
        (r = Some Role.team
         ↔ normalize (Project.owner data) ≠ Some U
           ∧ ¬ listed U (Project.admins data)
           ∧ listed U (Project.team data)) ∧
        (Embedded u ∈ members_of (Project.admins data) →
           comparable_key u = Some U →
           r = Some Role.owner ∨ r = Some Role.admin) ∧
        (Embedded u ∈ members_of (Project.team data) →
           comparable_key u = Some U → r ≠ None) ∧
        (Project.admins data = Some [Embedded u] →
           (r = Some Role.admin
            ↔ normalize (Project.owner data) ≠ Some U
              ∧ comparable_key u = Some U)) ∧
        (Project.team data = Some [Embedded u] →
           (r = Some Role.team
            ↔ normalize (Project.owner data) ≠ Some U
              ∧ ¬ listed U (Project.admins data)
              ∧ comparable_key u = Some U)))) ∧
  (∀ P, Embedded u ∈ memberships P →
     ∃ v, v ∈ getMemberUsers P ∧ comparable_key v = comparable_key u) ∧
  (∀ P v, u ∈ getMemberUsers P → v ∈ getMemberUsers P →
     comparable_key v = comparable_key u → v = u).
Proof.
  split_and!.
  - apply comparable_key_truthy.
  - apply comparable_key_falsy.
  - intros i U svc data w Hid Hget. split_and!.
    + intros Ho Hk. unfold run.
      rewrite (loadProject_resolved_outcome _ _ _ _ _ Hid Hget).
      rewrite role_outcome_owner; [done|]. by rewrite Ho.
    + intros Hnn. unfold run.
      by rewrite (loadProject_resolved _ _ _ _ _ Hid Hget Hnn).
    + intros Hlog. unfold run.
      rewrite (loadProject_completed _ _ _ _ _ Hid Hget Hlog).
      cbn [snd state State.userRole loaded].
      pose proof (derived_role_admin_iff data U) as Hadm.
      pose proof (derived_role_team_iff data U) as Hteam.
      split_and!.
      * intros Ho.
        assert (Hiff : derived_role data U = Some Role.owner
                       ↔ comparable_key u = Some U).
        { by rewrite derived_role_owner_iff, Ho. }
        split; [exact Hiff|]. intros k j Hk Hne Hj Hjk.
        rewrite Hiff, (comparable_key_truthy _ _ Hk Hne).
        split; intros ->; congruence.
      * exact Hadm.
      * exact Hteam.
      * intros Hin Hk.
        destruct (decide (normalize (Project.owner data) = Some U)) as [Ho|Ho].
        -- left. by apply derived_role_owner_iff.
        -- right. apply Hadm. split; [done|]. by exists (Embedded u).
      * intros Hin Hk Hnone.
        destruct (derived_role_cases data U)
          as [(_ & ?) | [(_ & _ & ?) | [(_ & _ & _ & ?)
             | (_ & _ & Hno & _)]]]; try congruence.
        apply Hno. by exists (Embedded u).
      * intros Ha. by rewrite Hadm, Ha, listed_singleton.
      * intros Ht. by rewrite Hteam, Ht, listed_singleton.
  - intros P Hin. rewrite getMemberUsers_first_seen.
    apply elem_of_embedded_records in Hin.
    destruct (first_seen_covers ∅ _ _ Hin) as [H | H].
    + by apply not_elem_of_empty in H.
    + apply elem_of_keys in H as (v & Hv & Hk). by exists v.
  - intros P v Hu Hv Hk.
    pose proof (first_seen_NoDup ∅ (embedded_records (memberships P))) as Hnd.
    rewrite <- getMemberUsers_first_seen in Hnd.
    apply list_elem_of_lookup in Hu as [a Ha], Hv as [b Hb].
    assert (a = b) as ->; [|congruence].
    eapply NoDup_lookup; [exact Hnd| |]; rewrite list_lookup_fmap.
    + rewrite Ha. reflexivity.
    + rewrite Hb. simpl. by rewrite Hk.
Qed.

Lemma normalization_prefers__id_witness :
  State.userRole (state (run (loadProject (Some "p2") "a" (svc_for p2))
                             mounted))
  = Some Role.owner
  ∧
  State.userRole (state (run (loadProject (Some "p2") "x" (svc_for p2))
                             mounted))
  ≠ Some Role.owner.
Proof.
  destruct (normalization_prefers__id ann) as (_ & _ & Hrole & _).
  split.
  - destruct (Hrole "p2" "a" (svc_for p2) p2 mounted eq_refl eq_refl)
      as (_ & _ & Hd).
    destruct (Hd eq_refl) as ((_ & Hd') & _); [reflexivity|].
    apply (Hd' "a" "x" eq_refl); [discriminate | reflexivity | discriminate
                                 | reflexivity].
  - destruct (Hrole "p2" "x" (svc_for p2) p2 mounted eq_refl eq_refl)
      as (_ & _ & Hd).
    destruct (Hd eq_refl) as ((_ & Hd') & _); [reflexivity|].
    apply (Hd' "a" "x" eq_refl); [discriminate | reflexivity | discriminate
                                 | reflexivity].
Defined.

(** ** The handlers as equations *)

Lemma p1_null_free : Null ∉ memberships p1.
Proof. no_null. Qed.

Lemma p2_null_free : Null ∉ memberships p2.
Proof. no_null. Qed.

Lemma isOwner_true r : isOwner r = true ↔ r = Some Role.owner.
Proof. unfold isOwner. apply bool_decide_eq_true. Qed.

Lemma isOwner_false r : isOwner r = false ↔ r ≠ Some Role.owner.
Proof. unfold isOwner. apply bool_decide_eq_false. Qed.

Lemma handleStatusChange_guard svc project r status w :
  project = None ∨ canChangeStatus r = false →
  handleStatusChange svc project r status w =
    (Normal tt, {| state := state w;
                   log := log w ++ [ShowToast statusDenied] |}).
Proof.
  unfold handleStatusChange. intros [-> | Hcan]; [done|].
  rewrite Hcan. by destruct project.
Qed.

Lemma handleDelete_guard svc project r w :
  project = None ∨ canDeleteProject r = false →
  handleDelete svc project r w =
    (Normal tt, {| state := state w;
                   log := log w ++ [ShowToast deleteDenied] |}).
Proof.
  unfold handleDelete. intros [-> | Hcan]; [done|].
  rewrite Hcan. by destruct project.
Qed.

Lemma handleStatusChange_resolved svc p r status p' w :
  canChangeStatus r = true →
  projectService.update svc (Project._id p) status = Resolved p' →
  handleStatusChange svc (Some p) r status w =
    (Normal tt,
     {| state := with_project (state w) (Some (Project.with_status p status));
        log := log w ++ [CallUpdate (Project._id p) status;
                         ShowToast (statusChanged status)] |}).
Proof.
  intros Hcan Hupd. unfold handleStatusChange. rewrite Hcan. simpl negb.
  cbv iota. eff_unfold. rewrite Hupd. cbn. unfold with_project, statusChanged.
  by rewrite <- app_assoc.
Qed.

(** X1: a permitted delete that the server accepts sends one delete request
    for the captured project's identifier, shows the deletion toast naming
    the project and navigates to the list; the hook state, local project
    included, is left as it was. *)
Theorem handleDelete_accepted svc p userRole w :
  canDeleteProject userRole = true →
  projectService.delete svc (Project._id p) = Resolved tt →
  let w' := run (handleDelete svc (Some p) userRole) w in
  fst (handleDelete svc (Some p) userRole w) = Normal tt ∧
  state w' = state w ∧
  log w' = log w ++ [CallDelete (Project._id p);
                     ShowToast (projectDeleted p); Navigate "/"] ∧
  description (projectDeleted p)
  = "Le projet " +:+ dquote +:+ Project.name p +:+ dquote +:+
    " a été supprimé.".
Proof.
  intros Hcan Hdel. unfold run.
  by rewrite (handleDelete_resolved _ _ _ _ Hcan Hdel).
Qed.

Lemma handleDelete_accepted_witness :
  log (run (handleDelete svc_ok (Some p1) (Some Role.owner))
           (viewing (Some Role.owner)))
  = [CallDelete "p1"; ShowToast (projectDeleted p1); Navigate "/"].
Proof.
  destruct (handleDelete_accepted svc_ok p1 (Some Role.owner)
              (viewing (Some Role.owner)) eq_refl eq_refl)
    as (_ & _ & Hl & _).
  exact Hl.
Defined.

(** X2: a permitted delete that the server rejects changes no hook state and
    does not navigate: after the request the only effect is one error toast,
    carrying the server's message when it is a non-empty string and
    the fixed fallback text otherwise. *)
Theorem handleDelete_refused svc p userRole e w :
  canDeleteProject userRole = true →
  projectService.delete svc (Project._id p) = Rejected e →
  let w' := run (handleDelete svc (Some p) userRole) w in
  state w' = state w ∧
  (∀ path, Navigate path ∈ log w' → Navigate path ∈ log w) ∧
  ∃ msg,
    log w' = log w ++ [CallDelete (Project._id p);
                       ShowToast (errorToast msg)] ∧
    (∀ m, server_message e = Some m → m ≠ "" → msg = m) ∧
    (server_message e = None ∨ server_message e = Some "" →
       msg = "Impossible de supprimer le projet").
Proof.
  intros Hcan Hdel.
  rewrite (handleDelete_rejected _ _ _ _ _ Hcan Hdel). simpl.
  split_and!; [done| |].
  - intros path. rewrite elem_of_app. intros [H | H]; [done|].
    apply elem_of_cons in H as [H | H]; [discriminate|].
    apply list_elem_of_singleton in H. discriminate.
  - eexists. split; [reflexivity|]. split.
    + intros m -> Hm. simpl. destruct (String.eqb_spec m ""); congruence.
    + by intros [-> | ->].
Qed.

Lemma handleDelete_refused_witness :
  log (run (handleDelete (svc_down (serverError "Interdit")) (Some p1)
              (Some Role.owner)) (viewing (Some Role.owner)))
  = [CallDelete "p1"; ShowToast (errorToast "Interdit")].
Proof.
  destruct (handleDelete_refused (svc_down (serverError "Interdit")) p1
              (Some Role.owner) (serverError "Interdit")
              (viewing (Some Role.owner)) eq_refl eq_refl)
    as (_ & _ & msg & Hl & Hm & _).
  rewrite Hl, (Hm "Interdit" eq_refl); [reflexivity | discriminate].
Defined.

(** X3: while no project is held, both handlers stop at the guard whatever
    the role, owner included: the access-denied toast is the only effect and
    neither the update nor the delete collaborator is called. *)
Theorem handlers_need_a_project svc userRole status w :
  let w1 := run (handleStatusChange svc None userRole status) w in
  let w2 := run (handleDelete svc None userRole) w in
  state w1 = state w ∧ log w1 = log w ++ [ShowToast statusDenied] ∧
  state w2 = state w ∧ log w2 = log w ++ [ShowToast deleteDenied].
Proof.
  unfold run.
  rewrite handleStatusChange_guard by (by left).
  rewrite handleDelete_guard by (by left). done.
Qed.

(** ** Loading, again *)

(** X4: a load whose fetch resolves stores the fetched record, clears the
    loading flag and leaves the four dialog cells alone, whatever the record
    holds.  When no membership is [null] its only outside call is the one
    fetch for the route identifier: no toast, no console report, no
    navigation.  When the role derivation reads a [null] membership, the
    error toast, the console report of a [TypeError] and the navigation to
    the list follow the fetch, and the role cell keeps the value it had. *)
Theorem loadProject_fetch_success i U svc data w :
  truthy (Some i) = true →
  projectService.getById svc i = Resolved data →
  let w' := run (loadProject (Some i) U svc) w in
  fst (loadProject (Some i) U svc w) = Normal tt ∧
  State.project (state w') = Some data ∧
  State.isLoading (state w') = false ∧
  dialog_cells (state w') = dialog_cells (state w) ∧
  (Null ∉ memberships data → log w' = log w ++ [CallGetById i]) ∧
  (null_reached data U →
     State.userRole (state w') = State.userRole (state w) ∧
     log w' = log w ++ [CallGetById i; ShowToast loadFailed;
                        ConsoleError "Erreur de chargement du projet:"
                          typeError;
                        Navigate "/"]) ∧
  (¬ null_reached data U → log w' = log w ++ [CallGetById i]).
Proof.
  intros Hid Hget. unfold run.
  rewrite (loadProject_resolved_outcome _ _ _ _ _ Hid Hget).
  cbn [fst snd]. split_and!; try (by destruct (role_outcome data U)).
  - intros Hnn. by rewrite role_outcome_null_free.
  - intros Hnull%role_outcome_None. by rewrite Hnull.
  - intros Hnot. destruct (role_outcome data U) as [r|] eqn:Er; [done|].
    by apply role_outcome_None in Er.
Qed.

Lemma loadProject_fetch_success_witness :
  let w' := run (loadProject (Some "p1") "u2" svc_ok) mounted in
  State.project (state w') = Some p1 ∧ log w' = [CallGetById "p1"].
Proof.
  destruct (loadProject_fetch_success "p1" "u2" svc_ok p1 mounted
              eq_refl eq_refl) as (_ & Hp & _ & _ & Hl & _).
  split; [exact Hp | exact (Hl p1_null_free)].
Defined.

(** X5: for a fetched project none of whose memberships is [null], what
    the load leaves in the project, role and loading cells does not depend
    on what they held before: two pages that agree on the dialog cells end
    in the same hook state, and loading again with the same answer changes
    nothing further. *)
Theorem loadProject_forgets_previous i U svc data w1 w2 :
  truthy (Some i) = true →
  projectService.getById svc i = Resolved data →
  Null ∉ memberships data →
  (dialog_cells (state w1) = dialog_cells (state w2) →
     state (run (loadProject (Some i) U svc) w1)
     = state (run (loadProject (Some i) U svc) w2)) ∧
  state (run (loadProject (Some i) U svc)
           (run (loadProject (Some i) U svc) w1))
  = state (run (loadProject (Some i) U svc) w1).
Proof.
  intros Hid Hget Hnn. unfold run.
  rewrite !(loadProject_resolved _ _ _ _ _ Hid Hget Hnn). simpl.
  split; [|done].
  unfold dialog_cells, loaded. intros [= -> -> -> ->]. done.
Qed.

Lemma loadProject_forgets_previous_witness :
  state (run (loadProject (Some "p1") "u2" svc_ok) (viewing (Some Role.owner)))
  = state (run (loadProject (Some "p1") "u2" svc_ok) mounted).
Proof.
  destruct (loadProject_forgets_previous "p1" "u2" svc_ok p1
              (viewing (Some Role.owner)) mounted eq_refl eq_refl
              p1_null_free) as [H _].
  apply H. reflexivity.
Defined.

(** ** From load to the handlers *)

Lemma derived_role_not_owner data U :
  normalize (Project.owner data) ≠ Some U →
  derived_role data U ≠ Some Role.owner.
Proof. intros Hne Hr. by apply derived_role_owner_iff in Hr. Qed.

(** X6: once a load has stored a project none of whose memberships is
    [null] and whose normalized owner is not the current user, the handlers
    of that render never reach the data-access module, whoever [admins] and
    [team] name and whatever status is asked: each shows its access-denied
    toast and leaves the hook state alone. *)
Theorem non_owner_cannot_mutate i U svc data w status :
  truthy (Some i) = true →
  projectService.getById svc i = Resolved data →
  Null ∉ memberships data →
  normalize (Project.owner data) ≠ Some U →
  let w1 := run (loadProject (Some i) U svc) w in
  let w2 := run (statusHandler svc w1 status) w1 in
  let w3 := run (deleteHandler svc w1) w1 in
  state w2 = state w1 ∧ log w2 = log w1 ++ [ShowToast statusDenied] ∧
  state w3 = state w1 ∧ log w3 = log w1 ++ [ShowToast deleteDenied].
Proof.
  intros Hid Hget Hnn Hne. unfold run, statusHandler, deleteHandler.
  rewrite (loadProject_resolved _ _ _ _ _ Hid Hget Hnn).
  cbn [snd state State.project State.userRole loaded].
  pose proof (derived_role_not_owner _ _ Hne) as Hr.
  apply isOwner_false in Hr.
  rewrite handleStatusChange_guard by (by right).
  rewrite handleDelete_guard by (by right). done.
Qed.

Lemma non_owner_cannot_mutate_witness :
  log (run (statusHandler svc_ok
              (run (loadProject (Some "p1") "u2" svc_ok) mounted) Archive)
           (run (loadProject (Some "p1") "u2" svc_ok) mounted))
  = [CallGetById "p1"; ShowToast statusDenied].
Proof.
  destruct (non_owner_cannot_mutate "p1" "u2" svc_ok p1 mounted Archive
              eq_refl eq_refl p1_null_free) as (_ & Hl & _).
  { simpl. discriminate. }
  exact Hl.
Defined.

(** X7: when the current user is the normalized owner of the fetched
    project, a status change from that render asks the server to update the
    fetched record's own [_id] (not the route parameter) and, once accepted,
    the local project is the fetched record with the new status; the role
    stays owner and nothing is fetched again. *)
Theorem owner_changes_status i U svc data p' w status :
  truthy (Some i) = true →
  projectService.getById svc i = Resolved data →
  normalize (Project.owner data) = Some U →
  projectService.update svc (Project._id data) status = Resolved p' →
  let w1 := run (loadProject (Some i) U svc) w in
  let w2 := run (statusHandler svc w1 status) w1 in
  State.project (state w2) = Some (Project.with_status data status) ∧
  State.userRole (state w2) = Some Role.owner ∧
  State.isLoading (state w2) = false ∧
  log w2 = log w ++ [CallGetById i; CallUpdate (Project._id data) status;
                     ShowToast (statusChanged status)].
Proof.
  intros Hid Hget Hown Hupd. unfold run, statusHandler.
  rewrite (loadProject_resolved_outcome _ _ _ _ _ Hid Hget).
  rewrite (role_outcome_owner _ _ Hown).
  cbn [snd state State.project State.userRole loaded after_fetch].
  rewrite (handleStatusChange_resolved _ _ _ _ p') by done.
  simpl. by rewrite <- app_assoc.
Qed.

Lemma owner_changes_status_witness :
  let w1 := run (loadProject (Some "p1") "u1" svc_ok) mounted in
  State.project (state (run (statusHandler svc_ok w1 Archive) w1))
  = Some (Project.with_status p1 Archive).
Proof.
  destruct (owner_changes_status "p1" "u1" svc_ok p1
              (Project.with_status p1 Archive) mounted Archive
              eq_refl eq_refl eq_refl eq_refl) as (Hp & _).
  exact Hp.
Defined.

(** X8: two status changes in a row, each from the render that follows the
    previous one and each accepted, leave the captured project with the last
    status only; both requests carry the same project identifier. *)
Theorem status_changes_last_wins svc p pa pb s1 s2 w :
  State.project (state w) = Some p →
  State.userRole (state w) = Some Role.owner →
  projectService.update svc (Project._id p) s1 = Resolved pa →
  projectService.update svc (Project._id p) s2 = Resolved pb →
  let w1 := run (statusHandler svc w s1) w in
  let w2 := run (statusHandler svc w1 s2) w1 in
  State.project (state w2) = Some (Project.with_status p s2) ∧
  log w2 = log w ++ [CallUpdate (Project._id p) s1;
                     ShowToast (statusChanged s1);
                     CallUpdate (Project._id p) s2;
                     ShowToast (statusChanged s2)].
Proof.
  intros Hp Hr Hu1 Hu2. unfold run, statusHandler. rewrite Hp, Hr.
  rewrite (handleStatusChange_resolved _ _ _ _ pa) by done.
  cbn [snd state State.project State.userRole with_project]. rewrite Hr.
  rewrite (handleStatusChange_resolved _ _ _ _ pb) by done.
  simpl. by rewrite <- app_assoc.
Qed.

Lemma status_changes_last_wins_witness :
  let w := viewing (Some Role.owner) in
  let w1 := run (statusHandler svc_ok w Inactif) w in
  State.project (state (run (statusHandler svc_ok w1 Archive) w1))
  = Some (Project.with_status p1 Archive).
Proof.
  destruct (status_changes_last_wins svc_ok p1
              (Project.with_status p1 Inactif) (Project.with_status p1 Archive)
              Inactif Archive (viewing (Some Role.owner))
              eq_refl eq_refl eq_refl eq_refl) as (Hp & _).
  exact Hp.
Defined.

(** ** Members and roles *)

Lemma keys_first_seen (l : list User.t) : keys (first_seen ∅ l) = keys l.
Proof.
  apply set_eq. intros k. rewrite !elem_of_keys. split.
  - intros (u & Hu & Hk). exists u. split; [|done].
    eapply sublist_subseteq; [apply first_seen_sublist | exact Hu].
  - intros (u & Hu & <-).
    destruct (first_seen_covers ∅ _ _ Hu) as [H | H].
    + by apply not_elem_of_empty in H.
    + by apply elem_of_keys in H.
Qed.

Lemma elem_of_memberships P m :
  m ∈ memberships P ↔
  m = Project.owner P ∨ m ∈ members_of (Project.admins P)
  ∨ m ∈ members_of (Project.team P).
Proof. unfold memberships. by rewrite elem_of_cons, elem_of_app. Qed.

Lemma listed_anywhere data U :
  (∃ m, m ∈ memberships data ∧ normalize m = Some U)
  ↔ normalize (Project.owner data) = Some U
    ∨ listed U (Project.admins data) ∨ listed U (Project.team data).
Proof.
  unfold listed. split.
  - intros (m & Hin & Hm).
    apply elem_of_memberships in Hin as [-> | [Hin | Hin]]; eauto.
  - intros [Ho | [(m & Hin & Hm) | (m & Hin & Hm)]].
    + exists (Project.owner data). split; [|done].
      apply elem_of_memberships. by left.
    + exists m. split; [|done]. apply elem_of_memberships. auto.
    + exists m. split; [|done]. apply elem_of_memberships. auto.
Qed.

Lemma derived_role_none_iff data U :
  derived_role data U = None
  ↔ ¬ ∃ m, m ∈ memberships data ∧ normalize m = Some U.
Proof.
  rewrite listed_anywhere.
  destruct (derived_role_cases data U)
    as [(? & ->) | [(? & ? & ->) | [(? & ? & ? & ->) | (? & ? & ? & ->)]]];
    split; try done; tauto.
Qed.

(** X9: the number of members shown is the number of distinct normalized
    identifiers among the embedded records of owner, admins and team; it is
    at most one plus the lengths of the two sequences, and it is zero
    exactly when no membership is an embedded record, that is, [null]
    apart, when every membership is a bare identifier. *)
Theorem member_count_distinct_keys P :
  length (getMemberUsers P) = size (keys (embedded_records (memberships P))) ∧
  (length (getMemberUsers P)
   ≤ 1 + length (members_of (Project.admins P))
       + length (members_of (Project.team P)))%nat ∧
  (length (getMemberUsers P) = 0
   ↔ ∀ m, m ∈ memberships P → ∀ u, m ≠ Embedded u) ∧
  (Null ∉ memberships P →
     (length (getMemberUsers P) = 0
      ↔ ∀ m, m ∈ memberships P → ∃ s, m = Bare s)).
Proof.
  rewrite getMemberUsers_first_seen.
  assert (Hzero : length (first_seen ∅ (embedded_records (memberships P))) = 0
                  ↔ ∀ m, m ∈ memberships P → ∀ u, m ≠ Embedded u).
  { rewrite length_zero_iff_nil. split.
    - intros Hnil m Hm u ->.
      apply elem_of_embedded_records in Hm.
      destruct (first_seen_covers ∅ _ _ Hm) as [H | H].
      + by apply not_elem_of_empty in H.
      + rewrite Hnil in H. by apply not_elem_of_empty in H.
    - intros Hnone.
      assert (embedded_records (memberships P) = []) as ->; [|done].
      apply elem_of_nil_inv. intros u Hu%elem_of_embedded_records.
      by apply (Hnone _ Hu u). }
  split_and!.
  - rewrite <- keys_first_seen. unfold keys.
    rewrite size_list_to_set by apply first_seen_NoDup.
    by rewrite length_fmap.
  - etransitivity; [apply sublist_length, first_seen_sublist|].
    assert (Hle : ∀ ms : list Member,
               (length (embedded_records ms) ≤ length ms)%nat).
    { induction ms as [|[s|u|] ms IH]; simpl; lia. }
    etransitivity; [apply Hle|].
    unfold memberships. simpl. rewrite length_app. lia.
  - exact Hzero.
  - intros Hnn. rewrite Hzero. split.
    + intros Hnone m Hm. destruct m as [s|u|].
      * by exists s.
      * by destruct (Hnone _ Hm u).
      * done.
    + intros Hbare m Hm u ->. destruct (Hbare _ Hm) as [s Hs]. discriminate.
Qed.

Lemma member_count_distinct_keys_witness :
  length (getMemberUsers p2) = 2 ∧ length (getMemberUsers p3) = 0.
Proof.
  destruct (member_count_distinct_keys p3) as (_ & _ & _ & H0).
  split; [by rewrite getMemberUsers_p2|].
  apply H0; [no_null|]. intros m Hm. unfold memberships in Hm. simpl in Hm.
  apply elem_of_cons in Hm as [-> | Hm]; [by exists "u1"|].
  apply list_elem_of_singleton in Hm as ->. by exists "u2".
Defined.

Lemma member_with_key P u :
  Embedded u ∈ memberships P →
  ∃ v, v ∈ getMemberUsers P ∧ comparable_key v = comparable_key u.
Proof.
  intros Hin%elem_of_embedded_records. rewrite getMemberUsers_first_seen.
  destruct (first_seen_covers ∅ _ _ Hin) as [H | H].
  - by apply not_elem_of_empty in H.
  - apply elem_of_keys in H as (v & Hv & Hk). by exists v.
Qed.

Lemma member_is_embedded P v :
  v ∈ getMemberUsers P → Embedded v ∈ memberships P.
Proof.
  rewrite getMemberUsers_first_seen. intros Hv.
  apply elem_of_embedded_records.
  eapply sublist_subseteq; [apply first_seen_sublist | exact Hv].
Qed.

(** X10: for a fetched project none of whose memberships is [null], the
    role a load derives is non-null exactly when the current user is named
    by a bare identifier among owner, admins and team, or is the key of one
    of the members shown; so every member shown, signing in under that key,
    gets a role. *)
Theorem role_iff_membership i U svc data w :
  truthy (Some i) = true →
  projectService.getById svc i = Resolved data →
  Null ∉ memberships data →
  State.userRole (state (run (loadProject (Some i) U svc) w)) ≠ None
  ↔ Bare U ∈ memberships data
    ∨ ∃ v, v ∈ getMemberUsers data ∧ comparable_key v = Some U.
Proof.
  intros Hid Hget Hnn. unfold run.
  rewrite (loadProject_resolved _ _ _ _ _ Hid Hget Hnn).
  cbn [snd state State.userRole loaded]. split.
  - intros Hr.
    assert (∃ m, m ∈ memberships data ∧ normalize m = Some U)
      as (m & Hin & Hm).
    { apply listed_anywhere.
      destruct (derived_role_cases data U)
        as [(? & _) | [(_ & ? & _) | [(_ & _ & ? & _) | (_ & _ & _ & ?)]]];
        auto. done. }
    destruct m as [s|u|]; simpl in Hm; [| |done].
    + left. congruence.
    + right. destruct (member_with_key _ _ Hin) as (v & Hv & Hk).
      exists v. split; [done | congruence].
  - intros Hm Hnone. apply derived_role_none_iff in Hnone. apply Hnone.
    destruct Hm as [Hb | (v & Hv & Hk)].
    + by exists (Bare U).
    + exists (Embedded v). split; [by apply member_is_embedded | done].
Qed.

Lemma role_iff_membership_witness :
  State.userRole (state (run (loadProject (Some "p2") "b" (svc_for p2))
                             mounted)) ≠ None.
Proof.
  apply (role_iff_membership "p2" "b" (svc_for p2) p2 mounted
           eq_refl eq_refl p2_null_free).
  right. exists bob. split; [|reflexivity].
  rewrite getMemberUsers_p2. right. left.
Defined.

(** X11: when the owner is an embedded record it is the first member shown,
    so the list is not empty, and no later member carries its key. *)
Theorem embedded_owner_listed_first P o :
  Project.owner P = Embedded o →
  ∃ rest, getMemberUsers P = o :: rest ∧
          ∀ v, v ∈ rest → comparable_key v ≠ comparable_key o.
Proof.
  intros Ho. rewrite getMemberUsers_first_seen. unfold memberships.
  rewrite Ho.
  change (embedded_records (Embedded o :: ?l))
    with (o :: embedded_records l).
  simpl. rewrite decide_False by apply not_elem_of_empty.
  eexists. split; [reflexivity|].
  intros v Hv%first_seen_fresh Hk. apply Hv. rewrite Hk.
  apply elem_of_union_l, elem_of_singleton. done.
Qed.

Lemma embedded_owner_listed_first_witness :
  ∃ rest, getMemberUsers p2 = ann :: rest.
Proof.
  destruct (embedded_owner_listed_first p2 ann eq_refl) as (rest & H & _).
  exists rest. exact H.
Defined.

(** ** What the page shows *)

Lemma render_loaded s p :
  State.isLoading s = false → State.project s = Some p →
  ∃ v, render s = Page v ∧
       heading v = Project.name p ∧ statusBadge v = Project.status p ∧
       kanbanProjectId v = Project._id p ∧ avatars v = getMemberUsers p.
Proof.
  intros Hl Hp. unfold render. rewrite Hl, Hp.
  eexists. split; [reflexivity|]. done.
Qed.

(** X12: once a load with a present identifier has completed the page is
    never the spinner: it is the not-found message exactly when no project
    is held, which is the case after a rejected first fetch, and it is the
    project page, headed by the fetched record's name, after a resolved
    one.  With no identifier the mounted page stays on the spinner. *)
Theorem render_after_load id U svc w :
  (truthy id = true →
     let s' := state (run (loadProject id U svc) w) in
     render s' ≠ Spinner ∧
     (render s' = NotFound ↔ State.project s' = None) ∧
     (∀ i e, id = Some i → projectService.getById svc i = Rejected e →
        State.project (state w) = None → render s' = NotFound) ∧
     (∀ i data, id = Some i → projectService.getById svc i = Resolved data →
        ∃ v, render s' = Page v ∧ heading v = Project.name data ∧
             statusBadge v = Project.status data ∧
             kanbanProjectId v = Project._id data)) ∧
  (truthy id = false →
     render (state (run (loadProject id U svc) mounted)) = Spinner).
Proof.
  split.
  - intros Hid. destruct id as [i|]; [|done]. unfold run.
    destruct (projectService.getById svc i) as [data|e] eqn:Hget.
    + rewrite (loadProject_resolved_outcome _ _ _ _ _ Hid Hget).
      destruct (role_outcome data U) as [r|]; simpl.
      all: split_and!; try done.
      all: try (intros i' e [= <-] He; congruence).
      all: intros i' data' [= <-] Hd; assert (data' = data) as -> by congruence.
      all: eexists; split; [reflexivity|]; done.
    + rewrite (loadProject_rejected _ _ _ _ _ Hid Hget). simpl.
      unfold render. simpl. split_and!.
      * by destruct (State.project (state w)).
      * by destruct (State.project (state w)).
      * by intros i' e' _ _ ->.
      * intros i' data' [= <-] Hd. congruence.
  - intros Hid. unfold run. by rewrite loadProject_absent.
Qed.

Lemma render_after_load_witness :
  render (state (run (loadProject (Some "p1") "u1" (svc_down noError))
                     mounted)) = NotFound.
Proof.
  destruct (render_after_load (Some "p1") "u1" (svc_down noError) mounted)
    as [H _].
  destruct (H eq_refl) as (_ & _ & Hnf & _).
  apply (Hnf "p1" noError); reflexivity.
Defined.

(** X13: on the page produced by the load of a project none of whose
    memberships is [null], every owner-only element is there
    exactly when the current user is the normalized owner of the fetched
    project: the edit, team, add-ticket and delete buttons, the enabled
    members button, the board's add-ticket callback, the status select (a
    read-only box otherwise) and the three owner dialogs; the non-owner
    banner is there exactly otherwise.  The ticket detail dialog does not
    depend on the role. *)
Theorem page_controls_follow_ownership i U svc data w :
  truthy (Some i) = true →
  projectService.getById svc i = Resolved data →
  Null ∉ memberships data →
  ∃ v, render (state (run (loadProject (Some i) U svc) w)) = Page v ∧
    let own := bool_decide (normalize (Project.owner data) = Some U) in
    editButton v = own ∧ teamButton v = own ∧ addTicketButton v = own ∧
    deleteButton v = own ∧ membersButtonEnabled v = own ∧
    kanbanOnAddTicket v = own ∧
    statusControl v = (if own then StatusSelect (Project.status data)
                       else StatusReadOnly (Project.status data)) ∧
    createTicketDialog v
    = (if own then Some (State.createTicketOpen (state w)) else None) ∧
    teamManagementDialog v
    = (if own then Some (State.teamDialogOpen (state w)) else None) ∧
    editProjectDialog v
    = (if own then Some (State.editProjectOpen (state w)) else None) ∧
    (nonOwnerBanner v = None ↔ own = true) ∧
    ticketDetailDialog v = State.selectedTicketId (state w).
Proof.
  intros Hid Hget Hnn. unfold run.
  rewrite (loadProject_resolved _ _ _ _ _ Hid Hget Hnn).
  cbn [snd state]. unfold render. cbn [State.isLoading State.project loaded].
  eexists. split; [reflexivity|].
  cbn [editButton teamButton addTicketButton deleteButton
       membersButtonEnabled kanbanOnAddTicket statusControl
       createTicketDialog teamManagementDialog editProjectDialog
       nonOwnerBanner ticketDetailDialog State.userRole
       State.createTicketOpen State.teamDialogOpen State.editProjectOpen
       State.selectedTicketId loaded].
  unfold canEditProject, canManageTeam, canCreateTicket, canDeleteProject,
    canChangeStatus.
  assert (Hown : isOwner (derived_role data U)
                 = bool_decide (normalize (Project.owner data) = Some U)).
  { unfold isOwner. apply bool_decide_ext, derived_role_owner_iff. }
  rewrite Hown.
  destruct (bool_decide _); split_and!; done.
Qed.

Lemma page_controls_follow_ownership_witness :
  ∃ v, render (state (run (loadProject (Some "p1") "u2" svc_ok) mounted))
       = Page v ∧
       deleteButton v = false ∧ statusControl v = StatusReadOnly Actif.
Proof.
  destruct (page_controls_follow_ownership "p1" "u2" svc_ok p1 mounted
              eq_refl eq_refl p1_null_free)
    as (v & Hv & _ & _ & _ & Hd & _ & _ & Hs & _).
  exists v. split; [exact Hv|]. split; [exact Hd | exact Hs].
Defined.

(** X14: after the load of a project none of whose memberships is [null],
    the non-owner banner names the role as administrator when the current
    user is listed in [admins], and as team member in every other non-owner
    case, including a user who is listed nowhere. *)
Theorem banner_role_label i U svc data w :
  truthy (Some i) = true →
  projectService.getById svc i = Resolved data →
  Null ∉ memberships data →
  normalize (Project.owner data) ≠ Some U →
  ∃ v, render (state (run (loadProject (Some i) U svc) w)) = Page v ∧
    (listed U (Project.admins data) →
       nonOwnerBanner v = Some "Administrateur") ∧
    (¬ listed U (Project.admins data) →
       nonOwnerBanner v = Some "Membre de l'équipe").
Proof.
  intros Hid Hget Hnn Hne. unfold run.
  rewrite (loadProject_resolved _ _ _ _ _ Hid Hget Hnn).
  cbn [snd state]. unfold render. cbn [State.isLoading State.project loaded].
  eexists. split; [reflexivity|].
  cbn [nonOwnerBanner State.userRole loaded].
  destruct (derived_role_cases data U)
    as [(? & _) | [(_ & Ha & ->) | [(_ & Ha & _ & ->) | (_ & Ha & _ & ->)]]];
    [done | | |]; split; intros; done.
Qed.

Lemma banner_role_label_witness :
  ∃ v, render (state (run (loadProject (Some "p1") "nobody" svc_ok) mounted))
       = Page v ∧ nonOwnerBanner v = Some "Membre de l'équipe".
Proof.
  destruct (banner_role_label "p1" "nobody" svc_ok p1 mounted
              eq_refl eq_refl p1_null_free) as (v & Hv & _ & Hb).
  { simpl. discriminate. }
  exists v. split; [exact Hv|]. apply Hb.
  intros (m & Hin & _). simpl in Hin. inversion Hin.
Defined.

(** X15: the members button shows the member list as avatars and labels
    their number in the singular for exactly one member and in the plural
    otherwise, zero included; a project whose memberships are all bare
    identifiers shows no avatar and the label for zero, whoever owns it. *)
Theorem member_count_label s p :
  State.isLoading s = false →
  State.project s = Some p →
  ∃ v, render s = Page v ∧ avatars v = getMemberUsers p ∧
    (length (getMemberUsers p) = 1 → memberCountLabel v = "1 membre") ∧
    (length (getMemberUsers p) ≠ 1 →
       memberCountLabel v
       = pretty (length (getMemberUsers p)) +:+ " membres") ∧
    ((∀ m, m ∈ memberships p → ∃ b, m = Bare b) →
       avatars v = [] ∧ memberCountLabel v = "0 membres").
Proof.
  intros Hl Hp. unfold render. rewrite Hl, Hp.
  eexists. split; [reflexivity|]. cbn [avatars memberCountLabel].
  split_and!; [done| | |].
  - intros ->. reflexivity.
  - intros Hn. by rewrite bool_decide_eq_true_2.
  - intros Hbare.
    assert (getMemberUsers p = []) as ->; [|done].
    rewrite getMemberUsers_first_seen.
    assert (embedded_records (memberships p) = []) as ->; [|done].
    apply elem_of_nil_inv. intros u Hu%elem_of_embedded_records.
    destruct (Hbare _ Hu) as [b Hb]. discriminate.
Qed.

Lemma member_count_label_witness :
  ∃ v, render (state (viewing (Some Role.team))) = Page v ∧
       avatars v = [] ∧ memberCountLabel v = "0 membres".
Proof.
  destruct (member_count_label (state (viewing (Some Role.team))) p1
              eq_refl eq_refl) as (v & Hv & _ & _ & _ & Hb).
  exists v. split; [exact Hv|]. apply Hb.
  intros m Hm. unfold memberships in Hm. simpl in Hm.
  apply elem_of_cons in Hm as [-> | Hm]; [by exists "u1"|].
  apply list_elem_of_singleton in Hm as ->. by exists "u2".
Defined.

(** X16: an accepted status change re-renders the same page with only the
    status badge and the value of the status select replaced: heading,
    description, members, buttons, banner and dialogs are as before. *)
Theorem status_change_rerender svc p p' status w :
  State.isLoading (state w) = false →
  State.project (state w) = Some p →
  State.userRole (state w) = Some Role.owner →
  projectService.update svc (Project._id p) status = Resolved p' →
  ∃ v, render (state w) = Page v ∧
       statusControl v = StatusSelect (Project.status p) ∧
       render (state (run (statusHandler svc w status) w))
       = Page (restatus v status).
Proof.
  intros Hl Hp Hr Hupd. unfold run, statusHandler. rewrite Hp, Hr.
  rewrite (handleStatusChange_resolved _ _ _ _ p') by done.
  cbn [snd state]. unfold render.
  cbn [with_project State.isLoading State.project State.userRole
       State.createTicketOpen State.selectedTicketId State.teamDialogOpen
       State.editProjectOpen].
  rewrite Hl, Hp, Hr. eexists. split; [reflexivity|]. split; reflexivity.
Qed.

Lemma status_change_rerender_witness :
  ∃ v, render (state (viewing (Some Role.owner))) = Page v ∧
       render (state (run (statusHandler svc_ok (viewing (Some Role.owner))
                             Archive) (viewing (Some Role.owner))))
       = Page (restatus v Archive).
Proof.
  destruct (status_change_rerender svc_ok p1 (Project.with_status p1 Archive)
              Archive (viewing (Some Role.owner))
              eq_refl eq_refl eq_refl eq_refl) as (v & Hv & _ & Hr).
  exists v. split; [exact Hv | exact Hr].
Defined.

(** X17: when a reload from a page that is not loading is rejected, the
    hook state ends exactly as it was: the page, its project and its
    permissions are those of before, although the error toast was shown and
    the navigation to the list requested. *)
Theorem failed_reload_keeps_page i U svc e w :
  truthy (Some i) = true →
  projectService.getById svc i = Rejected e →
  State.isLoading (state w) = false →
  let w' := run (loadProject (Some i) U svc) w in
  state w' = state w ∧ render (state w') = render (state w) ∧
  Navigate "/" ∈ log w'.
Proof.
  intros Hid Hget Hl. unfold run.
  rewrite (loadProject_rejected _ _ _ _ _ Hid Hget). cbn [snd state log].
  assert (not_loading (state w) = state w) as ->.
  { unfold not_loading. rewrite <- Hl. by destruct (state w). }
  split_and!; [done | done |].
  rewrite elem_of_app. right. rewrite !elem_of_cons. auto.
Qed.

Lemma failed_reload_keeps_page_witness :
  render (state (run (loadProject (Some "p1") "u1" (svc_down noError))
                     (viewing (Some Role.owner))))
  = render (state (viewing (Some Role.owner))).
Proof.
  destruct (failed_reload_keeps_page "p1" "u1" (svc_down noError) noError
              (viewing (Some Role.owner)) eq_refl eq_refl eq_refl)
    as (_ & H & _).
  exact H.
Defined.
